(** * maxwell.actions: the edit-action classes

    A shallow embedding of [maxwell/actions.py].  The module declares a small
    class hierarchy of frozen dataclasses; the only hand-written code is
    [Start.__repr__], [End.__repr__], [Copy.__post_init__] and the
    [conditional_counterpart] methods.  Everything else the module does is
    what [@dataclasses.dataclass(frozen=True, eq=True)] generates
    ([__init__], [__eq__], [__hash__], [__setattr__], [__delattr__]), so the
    embedding has three layers:

    - a store of Python objects (class + instance dictionary) addressed by
      identity, with a state-and-exception monad over it;
    - the class table of the module (bases, annotations, method
      dictionaries) and the methods the decorator generates from it;
    - the hand-written methods, translated line by line. *)

From Stdlib Require Import ZArith String Lia.
From stdpp Require Import base list strings.

Local Open Scope string_scope.
Local Open Scope list_scope.

(** ** Payload symbols

    [old] and [new] are annotated [Any].  The module only ever compares them
    ([==], [!=]), hashes them (through the generated [__hash__]) and prints
    them (in the [ValueError] message and the generated [__repr__]), so a
    payload type is any type with these operations. *)

Class Symbol (A : Type) := {
  sym_eqb : A -> A -> bool;   (* x == y *)
  sym_hash : A -> Z;          (* hash(x) *)
  sym_str : A -> string;      (* x formatted in an f-string *)
  sym_repr : A -> string      (* repr(x) *)
}.

(** The laws Python asks of a well-behaved hashable value: [==] is reflexive
    and equal values hash alike.  Strings, integers and the like obey them;
    a value unequal to itself, such as a float NaN, is no symbol in this
    sense.  Only the theorems of section [Lawful] assume them. *)
Class SymbolLaws (A : Type) `{Symbol A} : Prop := {
  sym_eqb_refl : forall x : A, sym_eqb x x = true;
  sym_hash_eqb : forall x y : A, sym_eqb x y = true -> sym_hash x = sym_hash y
}.

(** Builtins of the interpreter that the module relies on but does not
    define. *)
Class Builtins := {
  hash_str : string -> Z;           (* hash of a str *)
  hash_tuple : list Z -> Z;         (* hash of a tuple, from its items' hashes *)
  hash_id : nat -> Z;               (* object.__hash__, from the identity *)
  repr_str : string -> string;      (* repr of a str *)
  object_repr : string -> nat -> string  (* object.__repr__ *)
}.

(** ** The classes of the module *)

Inductive cls : Set :=
| Edit
| Start
| End_
| ConditionalEdit
| GenerativeEdit
| ConditionalSub
| ConditionalCopy
| ConditionalDel
| ConditionalIns
| Sub
| Copy
| Del
| Ins.

#[global] Instance cls_eq_dec : EqDecision cls.
Proof. solve_decision. Defined.

(** [c1 is c2] on class objects. *)
Definition cls_is (c1 c2 : cls) : bool := bool_decide (c1 = c2).

Definition qualname (c : cls) : string :=
  match c with
  | Edit => "Edit"
  | Start => "Start"
  | End_ => "End"
  | ConditionalEdit => "ConditionalEdit"
  | GenerativeEdit => "GenerativeEdit"
  | ConditionalSub => "ConditionalSub"
  | ConditionalCopy => "ConditionalCopy"
  | ConditionalDel => "ConditionalDel"
  | ConditionalIns => "ConditionalIns"
  | Sub => "Sub"
  | Copy => "Copy"
  | Del => "Del"
  | Ins => "Ins"
  end.

(** The base named in each [class] statement ([abc.ABC] and [object] are
    left out: they define none of the names looked up below). *)
Definition base (c : cls) : option cls :=
  match c with
  | Edit => None
  | Start | End_ | ConditionalEdit | GenerativeEdit => Some Edit
  | ConditionalSub | ConditionalCopy | ConditionalDel | ConditionalIns =>
      Some ConditionalEdit
  | Sub | Del | Ins => Some GenerativeEdit
  | Copy => Some Sub
  end.

(** Method resolution order: the class, then its chain of bases. *)
Fixpoint mro_from (fuel : nat) (c : cls) : list cls :=
  match fuel with
  | O => []
  | S fuel' =>
      c :: match base c with
           | Some b => mro_from fuel' b
           | None => []
           end
  end.

Definition mro (c : cls) : list cls := mro_from 4 c.

(** [issubclass(c, k)]. *)
Definition issubclass (c k : cls) : bool := bool_decide (k ∈ mro c).

(** Classes decorated with [@dataclasses.dataclass(frozen=True, eq=True)]. *)
Definition is_dataclass (c : cls) : bool :=
  match c with
  | Edit | ConditionalEdit | GenerativeEdit => false
  | _ => true
  end.

(** The functions written in the class bodies. *)
Inductive def : Set :=
| def_Start_repr
| def_End_repr
| def_ConditionalEdit_conditional_counterpart
| def_GenerativeEdit_conditional_counterpart
| def_Sub_conditional_counterpart
| def_Copy_post_init
| def_Copy_conditional_counterpart
| def_Del_conditional_counterpart
| def_Ins_conditional_counterpart.

(** The namespace of each class body. *)
Definition class_dict (c : cls) (name : string) : option def :=
  match c with
  | Start => if String.eqb name "__repr__" then Some def_Start_repr else None
  | End_ => if String.eqb name "__repr__" then Some def_End_repr else None
  | ConditionalEdit =>
      if String.eqb name "conditional_counterpart"
      then Some def_ConditionalEdit_conditional_counterpart else None
  | GenerativeEdit =>
      if String.eqb name "conditional_counterpart"
      then Some def_GenerativeEdit_conditional_counterpart else None
  | Sub =>
      if String.eqb name "conditional_counterpart"
      then Some def_Sub_conditional_counterpart else None
  | Copy =>
      if String.eqb name "__post_init__" then Some def_Copy_post_init
      else if String.eqb name "conditional_counterpart"
      then Some def_Copy_conditional_counterpart else None
  | Del =>
      if String.eqb name "conditional_counterpart"
      then Some def_Del_conditional_counterpart else None
  | Ins =>
      if String.eqb name "conditional_counterpart"
      then Some def_Ins_conditional_counterpart else None
  | _ => None
  end.

(** Functions under [@abc.abstractmethod]. *)
Definition is_abstractmethod (d : def) : bool :=
  match d with
  | def_GenerativeEdit_conditional_counterpart => true
  | _ => false
  end.

(** Attribute lookup on the type: the first class of the MRO whose body
    defines [name]. *)
Fixpoint lookup_in (k : list cls) (name : string) : option def :=
  match k with
  | [] => None
  | c :: k' =>
      match class_dict c name with
      | Some d => Some d
      | None => lookup_in k' name
      end
  end.

Definition find_def (c : cls) (name : string) : option def :=
  lookup_in (mro c) name.

(** [abc.ABC] refuses to instantiate a class one of whose names still
    resolves to an abstract method.  [conditional_counterpart] is the only
    name ever declared abstract. *)
Definition is_abstract (c : cls) : bool :=
  match find_def c "conditional_counterpart" with
  | Some d => is_abstractmethod d
  | None => false
  end.

(** ** Exceptions *)

Inductive exn : Set :=
| ValueError (msg : string)
| TypeError
| AttributeError
| NotImplementedError
| FrozenInstanceError
| SystemError.   (* a dangling reference; no Python program has one *)

Inductive result (T : Type) : Type :=
| Ok (t : T)
| Raise (e : exn).
Arguments Ok {T} t.
Arguments Raise {T} e.

(** ** A concrete alphabet: strings *)

Definition string_hash (s : string) : Z :=
  fold_left (fun acc a => (31 * acc + Z.of_nat (Ascii.nat_of_ascii a)) mod 2 ^ 61)%Z
            (list_ascii_of_string s) 0%Z.

Definition string_symbol : Symbol string := {|
  sym_eqb := String.eqb;
  sym_hash := string_hash;
  sym_str := fun s => s;
  sym_repr := fun s => "'" +:+ s +:+ "'"
|}.

(** Stand-ins for the interpreter's builtins, to run the model. *)
Definition sample_builtins : Builtins := {|
  hash_str := string_hash;
  hash_tuple := fun l =>
    fold_left (fun acc x => (1000003 * acc + x) mod 2 ^ 61)%Z l 0%Z;
  hash_id := Z.of_nat;
  repr_str := fun s => "'" +:+ s +:+ "'";
  object_repr := fun name r => "<" +:+ name +:+ " object>"
|}.

Section Actions.

Context {A : Type} `{Symbol A} `{Builtins}.

(** ** Values, objects and the store *)

(** A field holds a [str] (the sentinel tokens) or a payload symbol. *)
Inductive value : Type :=
| VStr (s : string)
| VSym (a : A).

(** [x == y] on field values; a token never equals a symbol.  (Python
    tries identity before [==] when it compares tuple items; with a
    reflexive [==] that changes nothing.) *)
Definition value_eqb (x y : value) : bool :=
  match x, y with
  | VStr s, VStr t => String.eqb s t
  | VSym a, VSym b => sym_eqb a b
  | _, _ => false
  end.

(** [x != y]: the default [__ne__] negates [__eq__]. *)
Definition value_neb (x y : value) : bool := negb (value_eqb x y).

Definition value_hash (x : value) : Z :=
  match x with
  | VStr s => hash_str s
  | VSym a => sym_hash a
  end.

Definition value_str (x : value) : string :=
  match x with
  | VStr s => s
  | VSym a => sym_str a
  end.

Definition value_repr (x : value) : string :=
  match x with
  | VStr s => repr_str s
  | VSym a => sym_repr a
  end.

(** [t1 == t2] on tuples: same length and equal items. *)
Fixpoint tuple_eqb (t1 t2 : list value) : bool :=
  match t1, t2 with
  | [], [] => true
  | x :: t1', y :: t2' => value_eqb x y && tuple_eqb t1' t2'
  | _, _ => false
  end.

(** An instance: its class and its [__dict__], in insertion order. *)
Record object : Type := Object {
  ob_class : cls;
  ob_dict : list (string * value)
}.

Fixpoint dict_get (name : string) (d : list (string * value)) : option value :=
  match d with
  | [] => None
  | (k, v) :: d' => if String.eqb k name then Some v else dict_get name d'
  end.

Fixpoint dict_set (name : string) (v : value) (d : list (string * value))
  : list (string * value) :=
  match d with
  | [] => [(name, v)]
  | (k, w) :: d' =>
      if String.eqb k name then (k, v) :: d' else (k, w) :: dict_set name v d'
  end.

Fixpoint dict_del (name : string) (d : list (string * value))
  : list (string * value) :=
  match d with
  | [] => []
  | (k, w) :: d' =>
      if String.eqb k name then d' else (k, w) :: dict_del name d'
  end.

(** Object identities are positions in the store. *)
Definition loc := nat.
Definition heap := list object.

(** ** The monad *)

(** A computation reads and extends the store; what it did to the store
    stays done when it raises. *)
Definition M (T : Type) : Type := heap -> result T * heap.

Definition ret {T} (t : T) : M T := fun h => (Ok t, h).

Definition raise {T} (e : exn) : M T := fun h => (Raise e, h).

Definition bind {T U} (m : M T) (k : T -> M U) : M U :=
  fun h =>
    match m h with
    | (Ok t, h') => k t h'
    | (Raise e, h') => (Raise e, h')
    end.

Notation "x <- m ;; k" := (bind m (fun x => k))
  (at level 100, m at next level, right associativity).
Notation "m ;; k" := (bind m (fun _ => k))
  (at level 100, right associativity).

(** The outcome of a computation, the store forgotten. *)
Definition eval {T} (m : M T) (h : heap) : result T := fst (m h).

Definition get_object (r : loc) : M object :=
  fun h =>
    match h !! r with
    | Some o => (Ok o, h)
    | None => (Raise SystemError, h)
    end.

Definition put_object (r : loc) (o : object) : M unit :=
  fun h => (Ok tt, <[r := o]> h).

(** [object.__new__(c)]: a fresh instance with an empty [__dict__]. *)
Definition alloc (c : cls) : M loc :=
  fun h => (Ok (length h), h ++ [Object c []]).

(** [type(r)], also [r.__class__]. *)
Definition type_of (r : loc) : M cls :=
  o <- get_object r ;; ret (ob_class o).

(** ** Attribute access *)

(** An annotated attribute of a class body, with its default if it has
    one. *)
Record field : Type := Field {
  f_name : string;
  f_default : option value
}.

Definition annotations (c : cls) : list field :=
  match c with
  | Start => [Field "bos" (Some (VStr "<BOS>"))]
  | End_ => [Field "eos" (Some (VStr "<EOS>"))]
  | ConditionalSub => [Field "new" None]
  | ConditionalIns => [Field "new" None]
  | Sub => [Field "old" None; Field "new" None]
  | Copy => [Field "old" None; Field "new" None]
  | Del => [Field "old" None]
  | Ins => [Field "new" None]
  | _ => []
  end.

(** A default is also a class attribute, found when the instance
    dictionary has no entry. *)
Fixpoint class_attr (k : list cls) (name : string) : option value :=
  match k with
  | [] => None
  | c :: k' =>
      match find (fun f => String.eqb (f_name f) name) (annotations c) with
      | Some (Field _ (Some v)) => Some v
      | _ => class_attr k' name
      end
  end.

(** [self.name]. *)
Definition py_getattr (self : loc) (name : string) : M value :=
  o <- get_object self ;;
  match dict_get name (ob_dict o) with
  | Some v => ret v
  | None =>
      match class_attr (mro (ob_class o)) name with
      | Some v => ret v
      | None => raise AttributeError
      end
  end.

(** [object.__setattr__(self, name, v)]. *)
Definition object_setattr (self : loc) (name : string) (v : value) : M unit :=
  o <- get_object self ;;
  put_object self (Object (ob_class o) (dict_set name v (ob_dict o))).

(** [object.__delattr__(self, name)]. *)
Definition object_delattr (self : loc) (name : string) : M unit :=
  o <- get_object self ;;
  match dict_get name (ob_dict o) with
  | Some _ => put_object self (Object (ob_class o) (dict_del name (ob_dict o)))
  | None => raise AttributeError
  end.

(** ** What [@dataclasses.dataclass(frozen=True, eq=True)] generates *)

Fixpoint field_set (f : field) (fs : list field) : list field :=
  match fs with
  | [] => [f]
  | g :: fs' =>
      if String.eqb (f_name g) (f_name f) then f :: fs'
      else g :: field_set f fs'
  end.

(** [dataclasses.fields(c)]: the fields of the dataclass bases, from the
    far end of the MRO, then the class's own; a field declared again keeps
    its place. *)
Definition fields (c : cls) : list field :=
  fold_left
    (fun acc k =>
       if is_dataclass k
       then fold_left (fun a f => field_set f a) (annotations k) acc
       else acc)
    (rev (mro c)) [].

Definition field_names (c : cls) : list string := map f_name (fields c).

(** Binding of the positional arguments of [__init__] to the fields; a
    keyword argument reaches the same parameter.  [None] is the
    [TypeError] of a call with too many or too few arguments. *)
Fixpoint bind_args (fs : list field) (args : list value)
  : option (list (string * value)) :=
  match fs, args with
  | [], [] => Some []
  | [], _ :: _ => None
  | f :: fs', a :: args' =>
      option_map (cons (f_name f, a)) (bind_args fs' args')
  | f :: fs', [] =>
      match f_default f with
      | Some d => option_map (cons (f_name f, d)) (bind_args fs' [])
      | None => None
      end
  end.

(** A frozen [__init__] stores each field with [object.__setattr__]. *)
Fixpoint init_fields (self : loc) (kvs : list (string * value)) : M unit :=
  match kvs with
  | [] => ret tt
  | (name, v) :: kvs' =>
      object_setattr self name v ;; init_fields self kvs'
  end.

(** The generated [__setattr__] of the frozen dataclass [c], and the
    chain of [super(c, self).__setattr__] calls behind it:
    [if type(self) is c or name in fields: raise FrozenInstanceError]. *)
Fixpoint setattr_from (k : list cls) (self : loc) (name : string) (v : value)
  : M unit :=
  match k with
  | [] => object_setattr self name v
  | c :: k' =>
      if is_dataclass c then
        t <- type_of self ;;
        if cls_is t c || bool_decide (name ∈ field_names c)
        then raise FrozenInstanceError
        else setattr_from k' self name v
      else setattr_from k' self name v
  end.

(** The statement [self.name = v]. *)
Definition py_setattr (self : loc) (name : string) (v : value) : M unit :=
  t <- type_of self ;; setattr_from (mro t) self name v.

(** The generated [__delattr__], with the same guard. *)
Fixpoint delattr_from (k : list cls) (self : loc) (name : string) : M unit :=
  match k with
  | [] => object_delattr self name
  | c :: k' =>
      if is_dataclass c then
        t <- type_of self ;;
        if cls_is t c || bool_decide (name ∈ field_names c)
        then raise FrozenInstanceError
        else delattr_from k' self name
      else delattr_from k' self name
  end.

(** The statement [del self.name]. *)
Definition py_delattr (self : loc) (name : string) : M unit :=
  t <- type_of self ;; delattr_from (mro t) self name.

(** The tuple of field values the generated [__eq__] and [__hash__] read
    off an instance. *)
Fixpoint getattrs (self : loc) (names : list string) : M (list value) :=
  match names with
  | [] => ret []
  | name :: names' =>
      v <- py_getattr self name ;;
      vs <- getattrs self names' ;;
      ret (v :: vs)
  end.

Definition dataclass_tuple (c : cls) (self : loc) : M (list value) :=
  getattrs self (field_names c).

(** The generated [__eq__] of dataclass [c]; [None] is [NotImplemented]:
    [if other.__class__ is self.__class__: return (fields of self) ==
    (fields of other)], [return NotImplemented]. *)
Definition dataclass_eq (c : cls) (self other : loc) : M (option bool) :=
  co <- type_of other ;;
  cs <- type_of self ;;
  if cls_is co cs then
    t1 <- dataclass_tuple c self ;;
    t2 <- dataclass_tuple c other ;;
    ret (Some (tuple_eqb t1 t2))
  else ret None.

(** [object.__eq__]: identity, else [NotImplemented]. *)
Definition object_eq (self other : loc) : M (option bool) :=
  ret (if Nat.eqb self other then Some true else None).

(** [type(self).__eq__(self, other)]: every dataclass carries its own
    generated [__eq__]; the three plain classes inherit [object]'s. *)
Definition type_eq (self other : loc) : M (option bool) :=
  t <- type_of self ;;
  if is_dataclass t then dataclass_eq t self other else object_eq self other.

(** [a == b]: the right operand goes first when its type is a proper
    subclass of the left one's; when both sides answer [NotImplemented]
    the comparison falls back on identity. *)
Definition py_eq (a b : loc) : M bool :=
  ta <- type_of a ;;
  tb <- type_of b ;;
  let swap := negb (cls_is ta tb) && issubclass tb ta in
  r1 <- (if swap then type_eq b a else type_eq a b) ;;
  match r1 with
  | Some v => ret v
  | None =>
      r2 <- (if swap then type_eq a b else type_eq b a) ;;
      match r2 with
      | Some v => ret v
      | None => ret (Nat.eqb a b)
      end
  end.

(** The generated [__hash__]: the hash of the tuple of fields. *)
Definition dataclass_hash (c : cls) (self : loc) : M Z :=
  t <- dataclass_tuple c self ;;
  ret (hash_tuple (map value_hash t)).

(** [hash(self)]. *)
Definition py_hash (self : loc) : M Z :=
  t <- type_of self ;;
  if is_dataclass t then dataclass_hash t self else ret (hash_id self).

(** The generated [__repr__], for the dataclasses that write none. *)
Definition dataclass_repr (c : cls) (self : loc) : M string :=
  t <- dataclass_tuple c self ;;
  ret (qualname c +:+ "(" +:+
       String.concat ", "
         (zip_with (fun name v => name +:+ "=" +:+ value_repr v)
                   (field_names c) t)
       +:+ ")").

(** ** The hand-written methods *)

(** [Start.__repr__]: [return self.bos]. *)
Definition Start_repr (self : loc) : M value := py_getattr self "bos".

(** [End.__repr__]: [return self.eos]. *)
Definition End_repr (self : loc) : M value := py_getattr self "eos".

(** [Copy.__post_init__]. *)
Definition Copy_post_init (self : loc) : M unit :=
  old <- py_getattr self "old" ;;
  new <- py_getattr self "new" ;;
  if value_neb old new then
    old' <- py_getattr self "old" ;;
    new' <- py_getattr self "new" ;;
    raise (ValueError
             ("Copy: old=" +:+ value_str old' +:+ " != new=" +:+ value_str new'))
  else ret tt.

(** The generated [__init__] of dataclass [c]. *)
Definition dataclass_init (c : cls) (self : loc) (args : list value) : M unit :=
  match bind_args (fields c) args with
  | None => raise TypeError
  | Some kvs =>
      init_fields self kvs ;;
      match find_def c "__post_init__" with
      | Some def_Copy_post_init => Copy_post_init self
      | _ => ret tt
      end
  end.

(** The call [c(args)]: [__new__], then [__init__]. *)
Definition call (c : cls) (args : list value) : M loc :=
  if is_abstract c then raise TypeError
  else if is_dataclass c then
    self <- alloc c ;;
    dataclass_init c self args ;;
    ret self
  else
    match args with
    | [] => alloc c
    | _ :: _ => raise TypeError
    end.

(** [ConditionalEdit.conditional_counterpart]: [return self]. *)
Definition ConditionalEdit_conditional_counterpart (self : loc) : M loc :=
  ret self.

(** [GenerativeEdit.conditional_counterpart]: [raise NotImplementedError]. *)
Definition GenerativeEdit_conditional_counterpart (self : loc) : M loc :=
  raise NotImplementedError.

(** [Sub.conditional_counterpart]: [return ConditionalSub(self.new)]. *)
Definition Sub_conditional_counterpart (self : loc) : M loc :=
  new <- py_getattr self "new" ;;
  call ConditionalSub [new].

(** [Copy.conditional_counterpart]: [return ConditionalCopy()]. *)
Definition Copy_conditional_counterpart (self : loc) : M loc :=
  call ConditionalCopy [].

(** [Del.conditional_counterpart]: [return ConditionalDel()]. *)
Definition Del_conditional_counterpart (self : loc) : M loc :=
  call ConditionalDel [].

(** [Ins.conditional_counterpart]: [return ConditionalIns(self.new)]. *)
Definition Ins_conditional_counterpart (self : loc) : M loc :=
  new <- py_getattr self "new" ;;
  call ConditionalIns [new].

(** The method call [self.conditional_counterpart()], resolved on
    [type(self)]. *)
Definition conditional_counterpart (self : loc) : M loc :=
  t <- type_of self ;;
  match find_def t "conditional_counterpart" with
  | Some def_ConditionalEdit_conditional_counterpart =>
      ConditionalEdit_conditional_counterpart self
  | Some def_GenerativeEdit_conditional_counterpart =>
      GenerativeEdit_conditional_counterpart self
  | Some def_Sub_conditional_counterpart => Sub_conditional_counterpart self
  | Some def_Copy_conditional_counterpart => Copy_conditional_counterpart self
  | Some def_Del_conditional_counterpart => Del_conditional_counterpart self
  | Some def_Ins_conditional_counterpart => Ins_conditional_counterpart self
  | _ => raise AttributeError
  end.

(** [repr(self)]; a [__repr__] that returns no [str] is a [TypeError]. *)
Definition py_repr (self : loc) : M string :=
  t <- type_of self ;;
  match find_def t "__repr__" with
  | Some def_Start_repr =>
      v <- Start_repr self ;;
      match v with VStr s => ret s | VSym _ => raise TypeError end
  | Some def_End_repr =>
      v <- End_repr self ;;
      match v with VStr s => ret s | VSym _ => raise TypeError end
  | _ =>
      if is_dataclass t then dataclass_repr t self
      else ret (object_repr (qualname t) self)
  end.

(** [str(self)]: no class writes [__str__], and [object.__str__] is
    [repr]. *)
Definition py_str (self : loc) : M string := py_repr self.

(** The test by which a [dict] or a [set] decides that the stored key [a]
    is the key [b] looked up: same hash, then identity or [==]. *)
Definition key_match (a b : loc) : M bool :=
  ha <- py_hash a ;;
  hb <- py_hash b ;;
  if Z.eqb ha hb then
    if Nat.eqb a b then ret true else py_eq a b
  else ret false.

(** ** The three kinds of edit *)

Definition sentinels : list cls := [Start; End_].

Definition conditional_variants : list cls :=
  [ConditionalCopy; ConditionalSub; ConditionalDel; ConditionalIns].

Definition generative_variants : list cls := [Sub; Copy; Del; Ins].

(** All ten concrete classes. *)
Definition edit_variants : list cls :=
  sentinels ++ conditional_variants ++ generative_variants.

(** ** Client programs

    What code holding references can do with this module: call a class,
    project, compare, hash, print, read a field, assign to a field, delete
    a field. *)

Inductive op : Type :=
| op_call (c : cls) (args : list value)
| op_conditional_counterpart (r : loc)
| op_eq (a b : loc)
| op_hash (r : loc)
| op_str (r : loc)
| op_getattr (r : loc) (name : string)
| op_setattr (r : loc) (name : string) (v : value)
| op_delattr (r : loc) (name : string).

(** The store after one operation, whether it returned or raised. *)
Definition run_op (o : op) (h : heap) : heap :=
  match o with
  | op_call c args => snd (call c args h)
  | op_conditional_counterpart r => snd (conditional_counterpart r h)
  | op_eq a b => snd (py_eq a b h)
  | op_hash r => snd (py_hash r h)
  | op_str r => snd (py_str r h)
  | op_getattr r name => snd (py_getattr r name h)
  | op_setattr r name v => snd (py_setattr r name v h)
  | op_delattr r name => snd (py_delattr r name h)
  end.

(** The store after a sequence of operations, each exception caught. *)
Definition run_ops (ops : list op) (h : heap) : heap :=
  fold_left (fun h' o => run_op o h') ops h.

(** ** Auxiliary notions for the proofs *)

(** A computation that leaves the store as it found it. *)
Definition read_only {T} (m : M T) : Prop := forall h, snd (m h) = h.

(** [h'] is [h], but for the object at [r]. *)
Definition touches (r : loc) (h h' : heap) : Prop :=
  h' = h \/ exists o, h' = <[r := o]> h.

(** The dictionary [__init__] builds from the bound arguments. *)
Definition store_all (kvs : list (string * value)) (d : list (string * value))
  : list (string * value) :=
  fold_left (fun d kv => dict_set (fst kv) (snd kv) d) kvs d.

(** * Properties *)

(** ** The class table *)

(** The fuel of [mro] reaches the root from every class. *)
Lemma mro_reaches_root c : last (mro c) = Some Edit.
Proof. now destruct c. Qed.

(** Every class but [GenerativeEdit] can be instantiated. *)
Lemma is_abstract_iff c : is_abstract c = true <-> c = GenerativeEdit.
Proof. destruct c; simpl; split; (reflexivity || discriminate). Qed.

(** A dataclass [__init__] takes the fields of [Sub] for [Copy] too. *)
Lemma field_names_Copy : field_names Copy = ["old"; "new"].
Proof. reflexivity. Qed.

(** ** Running the monad *)

Lemma bind_ok {T U} (m : M T) (k : T -> M U) h t h' :
  m h = (Ok t, h') -> bind m k h = k t h'.
Proof. unfold bind. now intros ->. Qed.

Lemma bind_raise {T U} (m : M T) (k : T -> M U) h e h' :
  m h = (Raise e, h') -> bind m k h = (Raise e, h').
Proof. unfold bind. now intros ->. Qed.

(** ** Store lemmas *)

Lemma get_object_Some r h o :
  h !! r = Some o -> get_object r h = (Ok o, h).
Proof. unfold get_object. now intros ->. Qed.

Lemma type_of_Some r h o :
  h !! r = Some o -> type_of r h = (Ok (ob_class o), h).
Proof.
  intros Hr. unfold type_of. now rewrite (bind_ok _ _ _ _ _ (get_object_Some _ _ _ Hr)).
Qed.

Lemma insert_fresh (h : heap) (o o' : object) :
  <[length h := o']> (h ++ [o]) = h ++ [o'].
Proof.
  replace (length h) with (length h + 0) by lia.
  now rewrite insert_app_r.
Qed.

Lemma lookup_fresh (h : heap) (o : object) : (h ++ [o]) !! length h = Some o.
Proof. now apply list_lookup_middle. Qed.

(** Two references to objects of different classes are different. *)
Lemma class_neq_loc_neq (h : heap) a b oa ob :
  h !! a = Some oa -> h !! b = Some ob ->
  ob_class oa <> ob_class ob -> a <> b.
Proof. intros Ha Hb Hc ->. congruence. Qed.

(** ** Computations that only read the store *)

Lemma read_only_ret {T} (t : T) : read_only (ret t).
Proof. now intros h. Qed.

Lemma read_only_raise {T} e : read_only (raise (T:=T) e).
Proof. now intros h. Qed.

Lemma read_only_get_object r : read_only (get_object r).
Proof. intros h. unfold get_object. now destruct (h !! r). Qed.

Lemma read_only_bind {T U} (m : M T) (k : T -> M U) :
  read_only m -> (forall t, read_only (k t)) -> read_only (bind m k).
Proof.
  intros Hm Hk h. unfold bind. specialize (Hm h).
  destruct (m h) as [[t|e] h']; simpl in *; subst; [apply Hk | reflexivity].
Qed.

Lemma read_only_if {T} (b : bool) (m1 m2 : M T) :
  read_only m1 -> read_only m2 -> read_only (if b then m1 else m2).
Proof. now destruct b. Qed.

Create HintDb reads discriminated.
#[local] Hint Resolve read_only_ret read_only_raise read_only_get_object
  read_only_bind read_only_if : reads.

(** Read-only computations compose; the tactic walks a definition's
    binds, conditionals and matches. *)
Ltac read_only_tac :=
  repeat first
    [ progress auto with reads
    | apply read_only_bind; [| intros ?]
    | apply read_only_if
    | match goal with
      | |- read_only (match ?x with _ => _ end) => destruct x
      end ].

Lemma read_only_type_of r : read_only (type_of r).
Proof. unfold type_of. read_only_tac. Qed.
#[local] Hint Resolve read_only_type_of : reads.

Lemma read_only_py_getattr r name : read_only (py_getattr r name).
Proof. unfold py_getattr. read_only_tac. Qed.
#[local] Hint Resolve read_only_py_getattr : reads.

Lemma read_only_getattrs r names : read_only (getattrs r names).
Proof. induction names; simpl; read_only_tac. Qed.
#[local] Hint Resolve read_only_getattrs : reads.

Lemma read_only_dataclass_tuple c r : read_only (dataclass_tuple c r).
Proof. unfold dataclass_tuple. read_only_tac. Qed.
#[local] Hint Resolve read_only_dataclass_tuple : reads.

Lemma read_only_type_eq a b : read_only (type_eq a b).
Proof. unfold type_eq, dataclass_eq, object_eq. read_only_tac. Qed.
#[local] Hint Resolve read_only_type_eq : reads.

Lemma read_only_py_eq a b : read_only (py_eq a b).
Proof. unfold py_eq. read_only_tac. Qed.

Lemma read_only_py_hash r : read_only (py_hash r).
Proof. unfold py_hash, dataclass_hash. read_only_tac. Qed.

Lemma read_only_py_repr r : read_only (py_repr r).
Proof.
  unfold py_repr, Start_repr, End_repr, dataclass_repr. read_only_tac.
Qed.

Lemma read_only_Copy_post_init r : read_only (Copy_post_init r).
Proof. unfold Copy_post_init. read_only_tac. Qed.

(** ** Reading attributes *)

Lemma py_getattr_dict r name h o v :
  h !! r = Some o -> dict_get name (ob_dict o) = Some v ->
  py_getattr r name h = (Ok v, h).
Proof.
  intros Hr Hd. unfold py_getattr.
  rewrite (bind_ok _ _ _ _ _ (get_object_Some _ _ _ Hr)). now rewrite Hd.
Qed.

Lemma getattrs_dict r names h o vs :
  h !! r = Some o ->
  Forall2 (fun name v => dict_get name (ob_dict o) = Some v) names vs ->
  getattrs r names h = (Ok vs, h).
Proof.
  intros Hr. induction 1 as [|name v names vs Hd _ IH]; simpl; [reflexivity|].
  rewrite (bind_ok _ _ _ _ _ (py_getattr_dict _ _ _ _ _ Hr Hd)).
  now rewrite (bind_ok _ _ _ _ _ IH).
Qed.

(** ** Construction *)

Lemma object_setattr_fresh h c d name v :
  object_setattr (length h) name v (h ++ [Object c d])
  = (Ok tt, h ++ [Object c (dict_set name v d)]).
Proof.
  unfold object_setattr.
  rewrite (bind_ok _ _ _ _ _ (get_object_Some _ _ _ (lookup_fresh h _))).
  unfold put_object. simpl. now rewrite insert_fresh.
Qed.

Lemma init_fields_fresh h c kvs : forall d,
  init_fields (length h) kvs (h ++ [Object c d])
  = (Ok tt, h ++ [Object c (store_all kvs d)]).
Proof.
  induction kvs as [|[name v] kvs IH]; intros d; simpl; [reflexivity|].
  rewrite (bind_ok _ _ _ _ _ (object_setattr_fresh h c d name v)). apply IH.
Qed.

(** A dataclass call allocates the instance, stores the bound arguments
    and runs [__post_init__] where the class has one. *)
Lemma call_dataclass c args kvs h :
  is_abstract c = false -> is_dataclass c = true ->
  bind_args (fields c) args = Some kvs ->
  call c args h
  = bind (match find_def c "__post_init__" with
          | Some def_Copy_post_init => Copy_post_init (length h)
          | _ => ret tt
          end)
         (fun _ => ret (length h))
         (h ++ [Object c (store_all kvs [])]).
Proof.
  intros Habs Hdc Hargs. unfold call. rewrite Habs, Hdc.
  rewrite (bind_ok _ _ _ _ _ (eq_refl : alloc c h = (Ok (length h), _))).
  unfold dataclass_init. rewrite Hargs.
  unfold bind. now rewrite init_fields_fresh.
Qed.

Lemma call_simple c args kvs h :
  is_abstract c = false -> is_dataclass c = true ->
  bind_args (fields c) args = Some kvs ->
  find_def c "__post_init__" = None ->
  call c args h = (Ok (length h), h ++ [Object c (store_all kvs [])]).
Proof.
  intros Habs Hdc Hargs Hpost.
  rewrite (call_dataclass c args kvs h Habs Hdc Hargs). now rewrite Hpost.
Qed.

Lemma call_Start h :
  call Start [] h = (Ok (length h), h ++ [Object Start [("bos", VStr "<BOS>")]]).
Proof. now erewrite call_simple by reflexivity. Qed.

Lemma call_Start_with h bos :
  call Start [bos] h = (Ok (length h), h ++ [Object Start [("bos", bos)]]).
Proof. now erewrite call_simple by reflexivity. Qed.

Lemma call_End h :
  call End_ [] h = (Ok (length h), h ++ [Object End_ [("eos", VStr "<EOS>")]]).
Proof. now erewrite call_simple by reflexivity. Qed.

Lemma call_End_with h eos :
  call End_ [eos] h = (Ok (length h), h ++ [Object End_ [("eos", eos)]]).
Proof. now erewrite call_simple by reflexivity. Qed.

Lemma call_ConditionalSub h new :
  call ConditionalSub [new] h
  = (Ok (length h), h ++ [Object ConditionalSub [("new", new)]]).
Proof. now erewrite call_simple by reflexivity. Qed.

Lemma call_ConditionalCopy h :
  call ConditionalCopy [] h = (Ok (length h), h ++ [Object ConditionalCopy []]).
Proof. now erewrite call_simple by reflexivity. Qed.

Lemma call_ConditionalDel h :
  call ConditionalDel [] h = (Ok (length h), h ++ [Object ConditionalDel []]).
Proof. now erewrite call_simple by reflexivity. Qed.

Lemma call_ConditionalIns h new :
  call ConditionalIns [new] h
  = (Ok (length h), h ++ [Object ConditionalIns [("new", new)]]).
Proof. now erewrite call_simple by reflexivity. Qed.

Lemma call_Sub h old new :
  call Sub [old; new] h
  = (Ok (length h), h ++ [Object Sub [("old", old); ("new", new)]]).
Proof. now erewrite call_simple by reflexivity. Qed.

Lemma call_Del h old :
  call Del [old] h = (Ok (length h), h ++ [Object Del [("old", old)]]).
Proof. now erewrite call_simple by reflexivity. Qed.

Lemma call_Ins h new :
  call Ins [new] h = (Ok (length h), h ++ [Object Ins [("new", new)]]).
Proof. now erewrite call_simple by reflexivity. Qed.

Lemma Copy_post_init_fresh h old new :
  Copy_post_init (length h) (h ++ [Object Copy [("old", old); ("new", new)]])
  = (if value_neb old new
     then Raise (ValueError ("Copy: old=" +:+ value_str old +:+
                             " != new=" +:+ value_str new))
     else Ok tt,
     h ++ [Object Copy [("old", old); ("new", new)]]).
Proof.
  set (o := Object Copy [("old", old); ("new", new)]).
  assert (Hold : py_getattr (length h) "old" (h ++ [o]) = (Ok old, h ++ [o]))
    by (eapply py_getattr_dict; [apply lookup_fresh | reflexivity]).
  assert (Hnew : py_getattr (length h) "new" (h ++ [o]) = (Ok new, h ++ [o]))
    by (eapply py_getattr_dict; [apply lookup_fresh | reflexivity]).
  unfold Copy_post_init.
  rewrite (bind_ok _ _ _ _ _ Hold), (bind_ok _ _ _ _ _ Hnew).
  destruct (value_neb old new); [|reflexivity].
  now rewrite (bind_ok _ _ _ _ _ Hold), (bind_ok _ _ _ _ _ Hnew).
Qed.

Lemma call_Copy h old new :
  call Copy [old; new] h
  = (if value_neb old new
     then Raise (ValueError ("Copy: old=" +:+ value_str old +:+
                             " != new=" +:+ value_str new))
     else Ok (length h),
     h ++ [Object Copy [("old", old); ("new", new)]]).
Proof.
  rewrite (call_dataclass Copy [old; new] [("old", old); ("new", new)] h)
    by reflexivity.
  change (find_def Copy "__post_init__") with (Some def_Copy_post_init).
  cbv iota. unfold bind, store_all; simpl fold_left.
  rewrite Copy_post_init_fresh. now destruct (value_neb old new).
Qed.

(** ** Equality and hashing of stored objects *)

Lemma read_only_run {T} (m : M T) h : read_only m -> m h = (eval m h, h).
Proof. intros Hm. unfold eval. rewrite <- (Hm h) at 3. now destruct (m h). Qed.

Lemma cls_is_refl c : cls_is c c = true.
Proof. unfold cls_is. now apply bool_decide_eq_true. Qed.

Lemma cls_is_neq c1 c2 : c1 <> c2 -> cls_is c1 c2 = false.
Proof. unfold cls_is. intros Hn. now apply bool_decide_eq_false_2. Qed.

(** Across classes every [__eq__] answers [NotImplemented]. *)
Lemma type_eq_class_neq a b h oa ob :
  h !! a = Some oa -> h !! b = Some ob -> ob_class oa <> ob_class ob ->
  type_eq a b h = (Ok None, h).
Proof.
  intros Ha Hb Hc. unfold type_eq, dataclass_eq, object_eq.
  rewrite (bind_ok _ _ _ _ _ (type_of_Some _ _ _ Ha)).
  destruct (is_dataclass (ob_class oa)).
  - rewrite (bind_ok _ _ _ _ _ (type_of_Some _ _ _ Hb)).
    rewrite (bind_ok _ _ _ _ _ (type_of_Some _ _ _ Ha)).
    rewrite cls_is_neq by congruence. reflexivity.
  - assert (Hab : a <> b) by (eapply class_neq_loc_neq; eauto).
    apply Nat.eqb_neq in Hab. unfold ret. now rewrite Hab.
Qed.

(** So [==] between instances of different classes is [False]. *)
Lemma py_eq_class_neq a b h oa ob :
  h !! a = Some oa -> h !! b = Some ob -> ob_class oa <> ob_class ob ->
  py_eq a b h = (Ok false, h).
Proof.
  intros Ha Hb Hc. unfold py_eq.
  rewrite (bind_ok _ _ _ _ _ (type_of_Some _ _ _ Ha)).
  rewrite (bind_ok _ _ _ _ _ (type_of_Some _ _ _ Hb)).
  assert (Hab : a <> b) by (eapply class_neq_loc_neq; eauto).
  apply Nat.eqb_neq in Hab.
  assert (H1 : type_eq a b h = (Ok None, h))
    by (eapply type_eq_class_neq; eauto).
  assert (H2 : type_eq b a h = (Ok None, h))
    by (eapply type_eq_class_neq; eauto).
  cbv zeta.
  destruct (negb (cls_is (ob_class oa) (ob_class ob)) &&
            issubclass (ob_class ob) (ob_class oa));
    repeat first [ rewrite (bind_ok _ _ _ _ _ H1)
                 | rewrite (bind_ok _ _ _ _ _ H2) ];
    unfold ret; now rewrite Hab.
Qed.

(** Within one dataclass [__eq__] compares the tuples of fields. *)
Lemma type_eq_dataclass a b h oa ob ta tb :
  h !! a = Some oa -> h !! b = Some ob -> ob_class ob = ob_class oa ->
  is_dataclass (ob_class oa) = true ->
  dataclass_tuple (ob_class oa) a h = (Ok ta, h) ->
  dataclass_tuple (ob_class oa) b h = (Ok tb, h) ->
  type_eq a b h = (Ok (Some (tuple_eqb ta tb)), h).
Proof.
  intros Ha Hb Hc Hdc Hta Htb. unfold type_eq.
  rewrite (bind_ok _ _ _ _ _ (type_of_Some _ _ _ Ha)).
  rewrite Hdc. unfold dataclass_eq.
  rewrite (bind_ok _ _ _ _ _ (type_of_Some _ _ _ Hb)).
  rewrite (bind_ok _ _ _ _ _ (type_of_Some _ _ _ Ha)).
  rewrite Hc, cls_is_refl.
  now rewrite (bind_ok _ _ _ _ _ Hta), (bind_ok _ _ _ _ _ Htb).
Qed.

Lemma py_eq_dataclass a b h oa ob ta tb :
  h !! a = Some oa -> h !! b = Some ob -> ob_class ob = ob_class oa ->
  is_dataclass (ob_class oa) = true ->
  dataclass_tuple (ob_class oa) a h = (Ok ta, h) ->
  dataclass_tuple (ob_class oa) b h = (Ok tb, h) ->
  py_eq a b h = (Ok (tuple_eqb ta tb), h).
Proof.
  intros Ha Hb Hc Hdc Hta Htb. unfold py_eq.
  rewrite (bind_ok _ _ _ _ _ (type_of_Some _ _ _ Ha)).
  rewrite (bind_ok _ _ _ _ _ (type_of_Some _ _ _ Hb)).
  rewrite Hc, cls_is_refl. cbv zeta. simpl negb. simpl andb. cbv iota.
  now rewrite (bind_ok _ _ _ _ _
                 (type_eq_dataclass a b h oa ob ta tb Ha Hb Hc Hdc Hta Htb)).
Qed.

(** A field that cannot be read makes the comparison raise. *)
Lemma py_eq_dataclass_raise a b h oa ob e :
  h !! a = Some oa -> h !! b = Some ob -> ob_class ob = ob_class oa ->
  is_dataclass (ob_class oa) = true ->
  dataclass_tuple (ob_class oa) a h = (Raise e, h)
  \/ (exists ta, dataclass_tuple (ob_class oa) a h = (Ok ta, h) /\
                 dataclass_tuple (ob_class oa) b h = (Raise e, h)) ->
  py_eq a b h = (Raise e, h).
Proof.
  intros Ha Hb Hc Hdc Ht.
  assert (Hte : type_eq a b h = (Raise e, h)).
  { unfold type_eq.
    rewrite (bind_ok _ _ _ _ _ (type_of_Some _ _ _ Ha)).
    rewrite Hdc. unfold dataclass_eq.
    rewrite (bind_ok _ _ _ _ _ (type_of_Some _ _ _ Hb)).
    rewrite (bind_ok _ _ _ _ _ (type_of_Some _ _ _ Ha)).
    rewrite Hc, cls_is_refl.
    destruct Ht as [Hta|(ta & Hta & Htb)].
    - now rewrite (bind_raise _ _ _ _ _ Hta).
    - now rewrite (bind_ok _ _ _ _ _ Hta), (bind_raise _ _ _ _ _ Htb). }
  unfold py_eq.
  rewrite (bind_ok _ _ _ _ _ (type_of_Some _ _ _ Ha)).
  rewrite (bind_ok _ _ _ _ _ (type_of_Some _ _ _ Hb)).
  rewrite Hc, cls_is_refl. cbv zeta. simpl negb. simpl andb. cbv iota.
  now rewrite (bind_raise _ _ _ _ _ Hte).
Qed.

(** The plain classes compare by identity. *)
Lemma type_eq_plain a b h oa :
  h !! a = Some oa -> is_dataclass (ob_class oa) = false ->
  type_eq a b h = (Ok (if Nat.eqb a b then Some true else None), h).
Proof.
  intros Ha Hdc. unfold type_eq.
  rewrite (bind_ok _ _ _ _ _ (type_of_Some _ _ _ Ha)). now rewrite Hdc.
Qed.

Lemma py_hash_dataclass a h oa ta :
  h !! a = Some oa -> is_dataclass (ob_class oa) = true ->
  dataclass_tuple (ob_class oa) a h = (Ok ta, h) ->
  py_hash a h = (Ok (hash_tuple (map value_hash ta)), h).
Proof.
  intros Ha Hdc Hta. unfold py_hash, dataclass_hash.
  rewrite (bind_ok _ _ _ _ _ (type_of_Some _ _ _ Ha)), Hdc.
  now rewrite (bind_ok _ _ _ _ _ Hta).
Qed.

(** An instance whose dictionary has every field of the class. *)
Lemma dataclass_tuple_dict c a h oa ta :
  h !! a = Some oa ->
  Forall2 (fun name v => dict_get name (ob_dict oa) = Some v)
          (field_names c) ta ->
  dataclass_tuple c a h = (Ok ta, h).
Proof. intros Ha Hf. unfold dataclass_tuple. eapply getattrs_dict; eauto. Qed.

(** ** The projection on stored objects *)

Lemma conditional_counterpart_self r h o :
  h !! r = Some o -> issubclass (ob_class o) ConditionalEdit = true ->
  conditional_counterpart r h = (Ok r, h).
Proof.
  intros Hr Hc. unfold conditional_counterpart.
  rewrite (bind_ok _ _ _ _ _ (type_of_Some _ _ _ Hr)).
  destruct (ob_class o); try discriminate Hc; reflexivity.
Qed.

Lemma conditional_counterpart_Sub r h o new :
  h !! r = Some o -> ob_class o = Sub ->
  dict_get "new" (ob_dict o) = Some new ->
  conditional_counterpart r h
  = (Ok (length h), h ++ [Object ConditionalSub [("new", new)]]).
Proof.
  intros Hr Hc Hd. unfold conditional_counterpart.
  rewrite (bind_ok _ _ _ _ _ (type_of_Some _ _ _ Hr)), Hc.
  change (find_def Sub "conditional_counterpart")
    with (Some def_Sub_conditional_counterpart).
  cbv iota. unfold Sub_conditional_counterpart.
  rewrite (bind_ok _ _ _ _ _ (py_getattr_dict _ _ _ _ _ Hr Hd)).
  apply call_ConditionalSub.
Qed.

Lemma conditional_counterpart_Copy r h o :
  h !! r = Some o -> ob_class o = Copy ->
  conditional_counterpart r h
  = (Ok (length h), h ++ [Object ConditionalCopy []]).
Proof.
  intros Hr Hc. unfold conditional_counterpart.
  rewrite (bind_ok _ _ _ _ _ (type_of_Some _ _ _ Hr)), Hc.
  apply call_ConditionalCopy.
Qed.

Lemma conditional_counterpart_Del r h o :
  h !! r = Some o -> ob_class o = Del ->
  conditional_counterpart r h
  = (Ok (length h), h ++ [Object ConditionalDel []]).
Proof.
  intros Hr Hc. unfold conditional_counterpart.
  rewrite (bind_ok _ _ _ _ _ (type_of_Some _ _ _ Hr)), Hc.
  apply call_ConditionalDel.
Qed.

Lemma conditional_counterpart_Ins r h o new :
  h !! r = Some o -> ob_class o = Ins ->
  dict_get "new" (ob_dict o) = Some new ->
  conditional_counterpart r h
  = (Ok (length h), h ++ [Object ConditionalIns [("new", new)]]).
Proof.
  intros Hr Hc Hd. unfold conditional_counterpart.
  rewrite (bind_ok _ _ _ _ _ (type_of_Some _ _ _ Hr)), Hc.
  change (find_def Ins "conditional_counterpart")
    with (Some def_Ins_conditional_counterpart).
  cbv iota. unfold Ins_conditional_counterpart.
  rewrite (bind_ok _ _ _ _ _ (py_getattr_dict _ _ _ _ _ Hr Hd)).
  apply call_ConditionalIns.
Qed.

(** ** Running straight-line programs *)

(** A reference handed out by an earlier allocation, found in a store
    that has grown since. *)
Ltac solve_lookup :=
  solve [ eassumption
        | apply lookup_fresh
        | apply lookup_app_l_Some; solve_lookup ].

Ltac solve_tuple :=
  eapply dataclass_tuple_dict; [solve_lookup | repeat constructor].

(** [a == b] for two stored instances of one dataclass. *)
Ltac run_eq :=
  erewrite py_eq_dataclass;
  [ | solve_lookup | solve_lookup | reflexivity | reflexivity
    | solve_tuple | solve_tuple ].

(** [a == b] for two stored instances of different classes. *)
Ltac run_neq :=
  erewrite py_eq_class_neq;
  [ | solve_lookup | solve_lookup | discriminate ].

(** One constructor call or one projection at the head of a program. *)
Ltac run_step :=
  first
    [ rewrite (bind_ok _ _ _ _ _ (call_Start _))
    | rewrite (bind_ok _ _ _ _ _ (call_Start_with _ _))
    | rewrite (bind_ok _ _ _ _ _ (call_End _))
    | rewrite (bind_ok _ _ _ _ _ (call_End_with _ _))
    | rewrite (bind_ok _ _ _ _ _ (call_ConditionalSub _ _))
    | rewrite (bind_ok _ _ _ _ _ (call_ConditionalCopy _))
    | rewrite (bind_ok _ _ _ _ _ (call_ConditionalDel _))
    | rewrite (bind_ok _ _ _ _ _ (call_ConditionalIns _ _))
    | rewrite (bind_ok _ _ _ _ _ (call_Sub _ _ _))
    | rewrite (bind_ok _ _ _ _ _ (call_Del _ _))
    | rewrite (bind_ok _ _ _ _ _ (call_Ins _ _))
    | erewrite (bind_ok (conditional_counterpart _))
        by first
          [ eapply conditional_counterpart_Sub;
              [solve_lookup | reflexivity | reflexivity]
          | eapply conditional_counterpart_Copy; [solve_lookup | reflexivity]
          | eapply conditional_counterpart_Del; [solve_lookup | reflexivity]
          | eapply conditional_counterpart_Ins;
              [solve_lookup | reflexivity | reflexivity]
          | eapply conditional_counterpart_self;
              [solve_lookup | reflexivity] ] ].

(** ** Totality of the projection *)

(** What a successful call of a generative class leaves in the store. *)
Lemma call_generative_inv c (args : list value) (h : heap) (e : loc) (h1 : heap) :
  In c generative_variants -> call c args h = (Ok e, h1) ->
  exists d,
    e = length h /\ h1 = h ++ [Object c d] /\
    (c = Sub \/ c = Ins -> exists new, dict_get "new" d = Some new).
Proof.
  intros Hc Hcall.
  destruct Hc as [<-|[<-|[<-|[<-|[]]]]].
  - destruct args as [|old [|new [|? ?]]]; try (vm_compute in Hcall; discriminate).
    rewrite call_Sub in Hcall. injection Hcall as <- <-.
    eexists; repeat split. intros _. now exists new.
  - destruct args as [|old [|new [|? ?]]]; try (vm_compute in Hcall; discriminate).
    rewrite call_Copy in Hcall.
    destruct (value_neb old new); [discriminate|]. injection Hcall as <- <-.
    eexists; repeat split. intros [?|?]; discriminate.
  - destruct args as [|old [|? ?]]; try (vm_compute in Hcall; discriminate).
    rewrite call_Del in Hcall. injection Hcall as <- <-.
    eexists; repeat split. intros [?|?]; discriminate.
  - destruct args as [|new [|? ?]]; try (vm_compute in Hcall; discriminate).
    rewrite call_Ins in Hcall. injection Hcall as <- <-.
    eexists; repeat split. intros _. now exists new.
Qed.

(** C3. The projection is total on generative edits: on every instance a
    call of [Sub], [Copy], [Del] or [Ins] has returned,
    [conditional_counterpart()] returns a fresh instance of the mapped
    [ConditionalEdit] class and raises nothing; the name never resolves to
    the abstract [GenerativeEdit.conditional_counterpart]. *)
Theorem conditional_counterpart_total
    (c : cls) (args : list value) (h h1 : heap) (e : loc) :
  In c generative_variants ->
  call c args h = (Ok e, h1) ->
  find_def c "conditional_counterpart"
    <> Some def_GenerativeEdit_conditional_counterpart
  /\ exists k o,
       conditional_counterpart e h1 = (Ok k, h1 ++ [o]) /\
       (h1 ++ [o]) !! k = Some o /\
       issubclass (ob_class o) ConditionalEdit = true /\
       ob_class o = match c with
                    | Sub => ConditionalSub
                    | Copy => ConditionalCopy
                    | Del => ConditionalDel
                    | Ins => ConditionalIns
                    | _ => c
                    end.
Proof.
  intros Hc Hcall.
  destruct (call_generative_inv c args h e h1 Hc Hcall) as (d & -> & -> & Hnew).
  assert (He : (h ++ [Object c d]) !! length h = Some (Object c d))
    by apply lookup_fresh.
  destruct Hc as [<-|[<-|[<-|[<-|[]]]]]; (split; [discriminate|]).
  - destruct Hnew as [new Hnew]; [now left|].
    exists (length (h ++ [Object Sub d])), (Object ConditionalSub [("new", new)]).
    repeat split; [|apply lookup_fresh].
    eapply conditional_counterpart_Sub; eauto.
  - exists (length (h ++ [Object Copy d])), (Object ConditionalCopy []).
    repeat split; [|apply lookup_fresh].
    eapply conditional_counterpart_Copy; eauto.
  - exists (length (h ++ [Object Del d])), (Object ConditionalDel []).
    repeat split; [|apply lookup_fresh].
    eapply conditional_counterpart_Del; eauto.
  - destruct Hnew as [new Hnew]; [now right|].
    exists (length (h ++ [Object Ins d])), (Object ConditionalIns [("new", new)]).
    repeat split; [|apply lookup_fresh].
    eapply conditional_counterpart_Ins; eauto.
Qed.

(** ** Sentinels *)

Lemma py_str_Start r h o s :
  h !! r = Some o -> ob_class o = Start ->
  dict_get "bos" (ob_dict o) = Some (VStr s) ->
  py_str r h = (Ok s, h).
Proof.
  intros Hr Hc Hd. unfold py_str, py_repr.
  rewrite (bind_ok _ _ _ _ _ (type_of_Some _ _ _ Hr)), Hc.
  change (find_def Start "__repr__") with (Some def_Start_repr). cbv iota.
  unfold Start_repr.
  now rewrite (bind_ok _ _ _ _ _ (py_getattr_dict _ _ _ _ _ Hr Hd)).
Qed.

Lemma py_str_End r h o s :
  h !! r = Some o -> ob_class o = End_ ->
  dict_get "eos" (ob_dict o) = Some (VStr s) ->
  py_str r h = (Ok s, h).
Proof.
  intros Hr Hc Hd. unfold py_str, py_repr.
  rewrite (bind_ok _ _ _ _ _ (type_of_Some _ _ _ Hr)), Hc.
  change (find_def End_ "__repr__") with (Some def_End_repr). cbv iota.
  unfold End_repr.
  now rewrite (bind_ok _ _ _ _ _ (py_getattr_dict _ _ _ _ _ Hr Hd)).
Qed.

Ltac run_str :=
  first
    [ erewrite py_str_Start by first [solve_lookup | reflexivity]
    | erewrite py_str_End by first [solve_lookup | reflexivity] ].

(** C5, as the code has it.  [Start] and [End] are dataclasses with one
    field, the token, whose default is ["<BOS>"] and ["<EOS>"]: two [Start]
    instances are equal exactly when their tokens are, so any two built
    with no argument are equal, and likewise for [End]; a [Start] never
    equals an [End], whatever the tokens; the string form of an instance is
    its token, ["<BOS>"] for [Start()] and ["<EOS>"] for [End()]. *)
Theorem sentinel_identity_display (h : heap) (s t : string) :
  eval (a <- call Start [] ;; b <- call Start [] ;; py_eq a b) h = Ok true
  /\ eval (a <- call End_ [] ;; b <- call End_ [] ;; py_eq a b) h = Ok true
  /\ eval (a <- call Start [VStr s] ;; b <- call Start [VStr t] ;;
           py_eq a b) h = Ok (String.eqb s t)
  /\ eval (a <- call End_ [VStr s] ;; b <- call End_ [VStr t] ;;
           py_eq a b) h = Ok (String.eqb s t)
  /\ eval (a <- call Start [VStr s] ;; b <- call End_ [VStr t] ;;
           py_eq a b) h = Ok false
  /\ eval (a <- call End_ [VStr s] ;; b <- call Start [VStr t] ;;
           py_eq a b) h = Ok false
  /\ eval (a <- call Start [] ;; py_str a) h = Ok "<BOS>"
  /\ eval (a <- call End_ [] ;; py_str a) h = Ok "<EOS>"
  /\ eval (a <- call Start [VStr s] ;; py_str a) h = Ok s
  /\ eval (a <- call End_ [VStr s] ;; py_str a) h = Ok s.
Proof.
  unfold eval. repeat split.
  - do 2 run_step. run_eq. reflexivity.
  - do 2 run_step. run_eq. reflexivity.
  - do 2 run_step. run_eq. simpl. now rewrite andb_true_r.
  - do 2 run_step. run_eq. simpl. now rewrite andb_true_r.
  - do 2 run_step. run_neq. reflexivity.
  - do 2 run_step. run_neq. reflexivity.
  - run_step. run_str. reflexivity.
  - run_step. run_str. reflexivity.
  - run_step. run_str. reflexivity.
  - run_step. run_str. reflexivity.
Qed.

(** ** Equality across kinds *)

(** C6. No instance of a conditional variant equals an instance of a
    generative variant, and no sentinel equals an instance of any other
    class, whichever side of [==] each stands on and whatever the
    payloads. *)
Theorem no_cross_kind_equality (h : heap) (a b : loc) (oa ob : object) :
  h !! a = Some oa -> h !! b = Some ob ->
  (In (ob_class oa) conditional_variants /\
   In (ob_class ob) generative_variants)
  \/ (In (ob_class oa) sentinels /\ ~ In (ob_class ob) sentinels) ->
  py_eq a b h = (Ok false, h) /\ py_eq b a h = (Ok false, h).
Proof.
  intros Ha Hb Hkind.
  assert (Hne : ob_class oa <> ob_class ob).
  { intros Heq. rewrite Heq in Hkind.
    destruct (ob_class ob); simpl in Hkind; intuition discriminate. }
  split; eapply py_eq_class_neq; eauto.
Qed.

(** ** Immutability *)

(** A call adds at most the instance it allocates. *)
Lemma call_extends c args h : exists ext, snd (call c args h) = h ++ ext.
Proof.
  unfold call. destruct (is_abstract c).
  { exists []. simpl. now rewrite app_nil_r. }
  destruct (is_dataclass c).
  - rewrite (bind_ok _ _ _ _ _ (eq_refl : alloc c h = (Ok (length h), _))).
    unfold dataclass_init. destruct (bind_args (fields c) args) as [kvs|].
    + exists [Object c (store_all kvs [])]. unfold bind.
      rewrite init_fields_fresh.
      destruct (find_def c "__post_init__") as [[]|]; try reflexivity.
      rewrite (read_only_run _ _ (read_only_Copy_post_init _)).
      now destruct (eval _ _).
    + now exists [Object c []].
  - destruct args; [now exists [Object c []]|].
    exists []. simpl. now rewrite app_nil_r.
Qed.

Lemma conditional_counterpart_extends r h :
  exists ext, snd (conditional_counterpart r h) = h ++ ext.
Proof.
  assert (Hnil : forall (T : Type) (res : result T),
             exists ext, snd (res, h) = h ++ ext)
    by (intros; exists []; simpl; now rewrite app_nil_r).
  unfold conditional_counterpart.
  unfold bind at 1. rewrite (read_only_run _ _ (read_only_type_of r)).
  destruct (eval (type_of r) h) as [t|e]; [|apply Hnil].
  destruct (find_def t "conditional_counterpart") as [[]|]; try apply Hnil.
  - unfold Sub_conditional_counterpart, bind.
    rewrite (read_only_run _ _ (read_only_py_getattr r "new")).
    destruct (eval _ _); [apply call_extends | apply Hnil].
  - apply call_extends.
  - apply call_extends.
  - unfold Ins_conditional_counterpart, bind.
    rewrite (read_only_run _ _ (read_only_py_getattr r "new")).
    destruct (eval _ _); [apply call_extends | apply Hnil].
Qed.

(** Assignment to an instance of a frozen dataclass is refused by the
    class's own [__setattr__], whatever the name. *)
Lemma py_setattr_frozen r h o name v :
  h !! r = Some o -> is_dataclass (ob_class o) = true ->
  py_setattr r name v h = (Raise FrozenInstanceError, h).
Proof.
  intros Hr Hdc. unfold py_setattr.
  rewrite (bind_ok _ _ _ _ _ (type_of_Some _ _ _ Hr)).
  assert (Hmro : exists k, mro (ob_class o) = ob_class o :: k)
    by (unfold mro; simpl; eauto).
  destruct Hmro as [k ->]. simpl. rewrite Hdc.
  rewrite (bind_ok _ _ _ _ _ (type_of_Some _ _ _ Hr)).
  now rewrite cls_is_refl.
Qed.

Lemma py_delattr_frozen r h o name :
  h !! r = Some o -> is_dataclass (ob_class o) = true ->
  py_delattr r name h = (Raise FrozenInstanceError, h).
Proof.
  intros Hr Hdc. unfold py_delattr.
  rewrite (bind_ok _ _ _ _ _ (type_of_Some _ _ _ Hr)).
  assert (Hmro : exists k, mro (ob_class o) = ob_class o :: k)
    by (unfold mro; simpl; eauto).
  destruct Hmro as [k ->]. simpl. rewrite Hdc.
  rewrite (bind_ok _ _ _ _ _ (type_of_Some _ _ _ Hr)).
  now rewrite cls_is_refl.
Qed.

(** An assignment changes at most the object assigned to. *)
Lemma setattr_from_touches k r name v h :
  touches r h (snd (setattr_from k r name v h)).
Proof.
  induction k as [|c k IH]; simpl.
  - unfold object_setattr, bind, get_object, put_object, touches.
    destruct (h !! r); simpl; eauto.
  - destruct (is_dataclass c); [|exact IH].
    unfold bind at 1. rewrite (read_only_run _ _ (read_only_type_of r)).
    destruct (eval (type_of r) h) as [t|e]; [|now left].
    destruct (cls_is t c || bool_decide (name ∈ field_names c));
      [now left | exact IH].
Qed.

Lemma delattr_from_touches k r name h :
  touches r h (snd (delattr_from k r name h)).
Proof.
  induction k as [|c k IH]; simpl.
  - unfold object_delattr, bind, get_object, put_object, touches.
    destruct (h !! r) as [o|]; simpl; eauto.
    destruct (dict_get name (ob_dict o)); simpl; eauto.
  - destruct (is_dataclass c); [|exact IH].
    unfold bind at 1. rewrite (read_only_run _ _ (read_only_type_of r)).
    destruct (eval (type_of r) h) as [t|e]; [|now left].
    destruct (cls_is t c || bool_decide (name ∈ field_names c));
      [now left | exact IH].
Qed.

Lemma lookup_insert_other (h : heap) (r r' : loc) (o' : object) :
  r' <> r -> <[r' := o']> h !! r = h !! r.
Proof. apply list_lookup_insert_ne. Qed.

(** No operation changes a stored instance of a frozen dataclass. *)
Lemma run_op_frozen (p : op) (h : heap) (r : loc) (o : object) :
  h !! r = Some o -> is_dataclass (ob_class o) = true ->
  run_op p h !! r = Some o.
Proof.
  intros Hr Hdc. destruct p as [c args|r'|a b|r'|r'|r' name|r' name v|r' name];
    simpl.
  - destruct (call_extends c args h) as [ext ->]. now apply lookup_app_l_Some.
  - destruct (conditional_counterpart_extends r' h) as [ext ->].
    now apply lookup_app_l_Some.
  - now rewrite read_only_py_eq.
  - now rewrite read_only_py_hash.
  - unfold py_str. now rewrite read_only_py_repr.
  - now rewrite read_only_py_getattr.
  - destruct (decide (r' = r)) as [->|Hne].
    + now rewrite (py_setattr_frozen r h o name v Hr Hdc).
    + unfold py_setattr, bind.
      rewrite (read_only_run _ _ (read_only_type_of r')).
      destruct (eval (type_of r') h) as [t|e]; [|exact Hr]. cbv beta iota.
      destruct (setattr_from_touches (mro t) r' name v h) as [->|[o' ->]];
        [exact Hr|]. now rewrite lookup_insert_other.
  - destruct (decide (r' = r)) as [->|Hne].
    + now rewrite (py_delattr_frozen r h o name Hr Hdc).
    + unfold py_delattr, bind.
      rewrite (read_only_run _ _ (read_only_type_of r')).
      destruct (eval (type_of r') h) as [t|e]; [|exact Hr]. cbv beta iota.
      destruct (delattr_from_touches (mro t) r' name h) as [->|[o' ->]];
        [exact Hr|]. now rewrite lookup_insert_other.
Qed.

Lemma run_ops_frozen (ops : list op) : forall (h : heap) (r : loc) (o : object),
  h !! r = Some o -> is_dataclass (ob_class o) = true ->
  run_ops ops h !! r = Some o.
Proof.
  induction ops as [|p ops IH]; intros h r o Hr Hdc; [exact Hr|].
  apply IH; [|exact Hdc]. now apply run_op_frozen.
Qed.

(** Reading a field looks at nothing but the object read. *)
Lemma py_getattr_local r name (h h' : heap) :
  h' !! r = h !! r ->
  eval (py_getattr r name) h' = eval (py_getattr r name) h.
Proof.
  intros Heq. unfold eval, py_getattr, bind, get_object. rewrite Heq.
  destruct (h !! r) as [o|]; [|reflexivity].
  destruct (dict_get name (ob_dict o)); [reflexivity|].
  now destruct (class_attr _ _).
Qed.

(** C9. Edit values are immutable.  For a stored instance of any of the
    ten classes: assigning to an attribute ([e.name = v]) and deleting one
    raise [FrozenInstanceError] and leave the store as it was; no sequence
    of operations of the module changes the instance; so every field reads
    after the sequence as it read before. *)
Theorem edits_are_immutable (h : heap) (r : loc) (o : object) :
  h !! r = Some o -> In (ob_class o) edit_variants ->
  (forall name v, py_setattr r name v h = (Raise FrozenInstanceError, h))
  /\ (forall name, py_delattr r name h = (Raise FrozenInstanceError, h))
  /\ (forall ops, run_ops ops h !! r = Some o)
  /\ (forall ops name,
        eval (py_getattr r name) (run_ops ops h)
        = eval (py_getattr r name) h).
Proof.
  intros Hr Hc.
  assert (Hdc : is_dataclass (ob_class o) = true).
  { destruct (ob_class o); simpl in Hc; try reflexivity;
      exfalso; intuition discriminate. }
  repeat split.
  - intros name v. now apply (py_setattr_frozen r h o).
  - intros name. now apply (py_delattr_frozen r h o).
  - intros ops. now apply run_ops_frozen.
  - intros ops name. apply py_getattr_local.
    rewrite Hr. now apply run_ops_frozen.
Qed.

(** ** What [__init__] leaves in the instance *)

Lemma dict_get_set_eq name v d : dict_get name (dict_set name v d) = Some v.
Proof.
  induction d as [|[k w] d IH]; simpl.
  - now rewrite String.eqb_refl.
  - destruct (String.eqb k name) eqn:Hk; simpl; now rewrite Hk.
Qed.

Lemma dict_get_set_ne name name' v d :
  name' <> name -> dict_get name (dict_set name' v d) = dict_get name d.
Proof.
  intros Hne. induction d as [|[k w] d IH]; simpl.
  - apply String.eqb_neq in Hne. now rewrite Hne.
  - destruct (String.eqb k name') eqn:Hk; simpl.
    + apply String.eqb_eq in Hk. subst k.
      apply String.eqb_neq in Hne. now rewrite Hne.
    + now rewrite IH.
Qed.

Lemma store_all_other name kvs : forall d,
  ~ In name (map fst kvs) ->
  dict_get name (store_all kvs d) = dict_get name d.
Proof.
  induction kvs as [|[k v] kvs IH]; intros d Hnin; [reflexivity|].
  simpl in Hnin. unfold store_all in *. simpl.
  rewrite IH by tauto. apply dict_get_set_ne. tauto.
Qed.

(** With distinct field names, every field reads as the value stored. *)
Lemma store_all_get kvs : forall d,
  List.NoDup (map fst kvs) ->
  Forall2 (fun name v => dict_get name (store_all kvs d) = Some v)
          (map fst kvs) (map snd kvs).
Proof.
  induction kvs as [|[k v] kvs IH]; intros d Hnd; [constructor|].
  simpl in Hnd. apply List.NoDup_cons_iff in Hnd as [Hnin Hnd].
  simpl. constructor; [|now apply IH].
  change (store_all ((k, v) :: kvs) d) with (store_all kvs (dict_set k v d)).
  rewrite store_all_other by exact Hnin. apply dict_get_set_eq.
Qed.

Lemma bind_args_names fs : forall args kvs,
  bind_args fs args = Some kvs -> map fst kvs = map f_name fs.
Proof.
  induction fs as [|f fs IH]; intros [|a args] kvs; simpl.
  - now intros [= <-].
  - discriminate.
  - destruct (f_default f); [|discriminate].
    destruct (bind_args fs []) as [kvs'|] eqn:Hb; [|discriminate].
    intros [= <-]. simpl. now rewrite (IH _ _ Hb).
  - destruct (bind_args fs args) as [kvs'|] eqn:Hb; [|discriminate].
    intros [= <-]. simpl. now rewrite (IH _ _ Hb).
Qed.

Lemma field_names_NoDup c : List.NoDup (field_names c).
Proof.
  destruct c; vm_compute; repeat constructor; simpl; intuition discriminate.
Qed.

(** A dataclass call that returns has bound its arguments; it returns the
    next free reference and the store gains the initialised instance. *)
Lemma call_dataclass_inv c (args : list value) (h : heap) (a : loc) (h1 : heap) :
  is_dataclass c = true -> call c args h = (Ok a, h1) ->
  exists kvs,
    bind_args (fields c) args = Some kvs /\ a = length h /\
    h1 = h ++ [Object c (store_all kvs [])].
Proof.
  intros Hdc Hcall.
  assert (Habs : is_abstract c = false) by (now destruct c).
  destruct (bind_args (fields c) args) as [kvs|] eqn:Hb.
  - exists kvs. rewrite (call_dataclass c args kvs h Habs Hdc Hb) in Hcall.
    unfold bind in Hcall.
    destruct (find_def c "__post_init__") as [[]|];
      try (injection Hcall as <- <-; now repeat split).
    rewrite (read_only_run _ _ (read_only_Copy_post_init _)) in Hcall.
    destruct (eval _ _); [|discriminate].
    injection Hcall as <- <-. now repeat split.
  - unfold call in Hcall. rewrite Habs, Hdc in Hcall.
    unfold bind, alloc, dataclass_init in Hcall. rewrite Hb in Hcall.
    discriminate.
Qed.

(** The fields of a freshly built instance, in declaration order. *)
Lemma constructed_tuple c (args : list value) kvs (h : heap) (a : loc) :
  bind_args (fields c) args = Some kvs ->
  h !! a = Some (Object c (store_all kvs [])) ->
  dataclass_tuple c a h = (Ok (map snd kvs), h).
Proof.
  intros Hb Ha. eapply dataclass_tuple_dict; [exact Ha|].
  unfold field_names. rewrite <- (bind_args_names _ _ _ Hb).
  apply store_all_get. rewrite (bind_args_names _ _ _ Hb).
  apply field_names_NoDup.
Qed.

(** ** Projecting twice *)

Lemma bind_fixed {T} (m : M T) (k : T -> M T) (h : heap) :
  (forall t h', m h = (Ok t, h') -> k t h' = (Ok t, h')) ->
  bind m k h = m h.
Proof.
  intros Hk. unfold bind. destruct (m h) as [[t|e] h'] eqn:Hm; [|reflexivity].
  now apply Hk.
Qed.

(** Whatever [conditional_counterpart] returns is a conditional edit, on
    which it is the identity. *)
Lemma conditional_counterpart_fixed (r c : loc) (h h' : heap) :
  conditional_counterpart r h = (Ok c, h') ->
  conditional_counterpart c h' = (Ok c, h').
Proof.
  assert (Hfresh : forall k args,
             In k conditional_variants -> call k args h = (Ok c, h') ->
             conditional_counterpart c h' = (Ok c, h')).
  { intros k args Hk Hcall.
    assert (Hdc : is_dataclass k = true)
      by (destruct Hk as [<-|[<-|[<-|[<-|[]]]]]; reflexivity).
    destruct (call_dataclass_inv k args h c h' Hdc Hcall) as (kvs & _ & -> & ->).
    eapply conditional_counterpart_self; [apply lookup_fresh|].
    destruct Hk as [<-|[<-|[<-|[<-|[]]]]]; reflexivity. }
  unfold conditional_counterpart at 1.
  destruct (h !! r) as [o|] eqn:Hr.
  - rewrite (bind_ok _ _ _ _ _ (type_of_Some _ _ _ Hr)).
    destruct (ob_class o) eqn:Hc; simpl; try discriminate;
      try (intros [= <- <-]; eapply conditional_counterpart_self; eauto;
           now rewrite Hc).
    + unfold Sub_conditional_counterpart, bind.
      rewrite (read_only_run _ _ (read_only_py_getattr r "new")).
      destruct (eval _ _) as [new|e]; [|discriminate].
      apply Hfresh. simpl. tauto.
    + apply Hfresh. simpl. tauto.
    + apply Hfresh. simpl. tauto.
    + unfold Ins_conditional_counterpart, bind.
      rewrite (read_only_run _ _ (read_only_py_getattr r "new")).
      destruct (eval _ _) as [new|e]; [|discriminate].
      apply Hfresh. simpl. tauto.
  - unfold type_of, bind, get_object. rewrite Hr. discriminate.
Qed.

(** So the projection of a projection is the projection; where the first
    call raises, the second never runs. *)
Lemma conditional_counterpart_idem (r : loc) (h : heap) :
  (c <- conditional_counterpart r ;; conditional_counterpart c) h
  = conditional_counterpart r h.
Proof.
  apply bind_fixed. intros c h'. apply conditional_counterpart_fixed.
Qed.

Section Lawful.

Context `{!SymbolLaws A}.

Lemma value_eqb_refl (x : value) : value_eqb x x = true.
Proof. destruct x; simpl; [apply String.eqb_refl | apply sym_eqb_refl]. Qed.

Lemma value_neb_refl (x : value) : value_neb x x = false.
Proof. unfold value_neb. now rewrite value_eqb_refl. Qed.

Lemma tuple_eqb_refl (t : list value) : tuple_eqb t t = true.
Proof. induction t; simpl; [reflexivity|]. now rewrite value_eqb_refl. Qed.

Lemma value_hash_eqb (x y : value) :
  value_eqb x y = true -> value_hash x = value_hash y.
Proof.
  destruct x, y; simpl; try discriminate.
  - now intros ->%String.eqb_eq.
  - apply sym_hash_eqb.
Qed.

Lemma tuple_hash_eqb (t1 t2 : list value) :
  tuple_eqb t1 t2 = true -> map value_hash t1 = map value_hash t2.
Proof.
  revert t2. induction t1 as [|x t1 IH]; intros [|y t2]; simpl;
    try discriminate; [reflexivity|].
  intros [Hx Ht]%andb_prop. now rewrite (value_hash_eqb _ _ Hx), (IH _ Ht).
Qed.

Lemma call_Copy_same h x :
  call Copy [x; x] h
  = (Ok (length h), h ++ [Object Copy [("old", x); ("new", x)]]).
Proof. rewrite call_Copy. now rewrite value_neb_refl. Qed.

(** C2. [Copy(old, new)] with [old != new] raises [ValueError] from the
    constructor call itself: no reference is returned and the store gains
    only the rejected [Copy] instance, no [Sub].  [Copy(x, x)] succeeds, and
    two such instances compare equal. *)
Theorem Copy_construction (h : heap) (old new x : value) :
  (value_neb old new = true ->
   call Copy [old; new] h
   = (Raise (ValueError ("Copy: old=" +:+ value_str old +:+
                         " != new=" +:+ value_str new)),
      h ++ [Object Copy [("old", old); ("new", new)]]))
  /\ call Copy [x; x] h
     = (Ok (length h), h ++ [Object Copy [("old", x); ("new", x)]])
  /\ eval (a <- call Copy [x; x] ;;
           b <- call Copy [x; x] ;;
           py_eq a b) h = Ok true.
Proof.
  split; [|split].
  - intros Hne. rewrite call_Copy. now rewrite Hne.
  - apply call_Copy_same.
  - unfold eval. do 2 rewrite (bind_ok _ _ _ _ _ (call_Copy_same _ _)).
    run_eq. now rewrite tuple_eqb_refl.
Qed.

(** C1. The generative-to-conditional table is exact: [Sub(old, new)]
    projects to a value equal to [ConditionalSub(new)], [Copy(x, x)] to
    [ConditionalCopy()], [Del(old)] to [ConditionalDel()] and [Ins(new)] to
    [ConditionalIns(new)]; the objects returned for [Copy] and [Del] have an
    empty dictionary, so they carry neither [old] nor [new]. *)
Theorem conditional_counterpart_table (h : heap) (old new x : value) :
  eval (e <- call Sub [old; new] ;;
        c <- conditional_counterpart e ;;
        k <- call ConditionalSub [new] ;;
        py_eq c k) h = Ok true
  /\ eval (e <- call Copy [x; x] ;;
           c <- conditional_counterpart e ;;
           k <- call ConditionalCopy [] ;;
           py_eq c k) h = Ok true
  /\ eval (e <- call Del [old] ;;
           c <- conditional_counterpart e ;;
           k <- call ConditionalDel [] ;;
           py_eq c k) h = Ok true
  /\ eval (e <- call Ins [new] ;;
           c <- conditional_counterpart e ;;
           k <- call ConditionalIns [new] ;;
           py_eq c k) h = Ok true
  /\ eval (e <- call Copy [x; x] ;;
           c <- conditional_counterpart e ;;
           get_object c) h = Ok (Object ConditionalCopy [])
  /\ eval (e <- call Del [old] ;;
           c <- conditional_counterpart e ;;
           get_object c) h = Ok (Object ConditionalDel []).
Proof.
  unfold eval. repeat split.
  - do 3 run_step. run_eq. simpl. now rewrite value_eqb_refl.
  - rewrite (bind_ok _ _ _ _ _ (call_Copy_same _ _)). do 2 run_step.
    run_eq. reflexivity.
  - do 3 run_step. run_eq. reflexivity.
  - do 3 run_step. run_eq. simpl. now rewrite value_eqb_refl.
  - rewrite (bind_ok _ _ _ _ _ (call_Copy_same _ _)). run_step.
    erewrite get_object_Some by solve_lookup. reflexivity.
  - do 2 run_step. erewrite get_object_Some by solve_lookup. reflexivity.
Qed.

(** C4. On a conditional edit the projection is the identity:
    [conditional_counterpart()] returns the very object it is called on and
    leaves the store alone, so [c.conditional_counterpart() == c] for an
    instance of each of the four conditional classes; and for any
    reference whatever, projecting twice is projecting once. *)
Theorem conditional_projection_identity (h : heap) (new : value) :
  (forall r o,
     h !! r = Some o -> In (ob_class o) conditional_variants ->
     conditional_counterpart r h = (Ok r, h))
  /\ (forall c args,
        In (c, args) [(ConditionalCopy, []); (ConditionalSub, [new]);
                      (ConditionalDel, []); (ConditionalIns, [new])] ->
        eval (k <- call c args ;;
              k' <- conditional_counterpart k ;;
              e <- py_eq k' k ;;
              ret (Nat.eqb k' k, e)) h = Ok (true, true))
  /\ (forall r,
        (c <- conditional_counterpart r ;; conditional_counterpart c) h
        = conditional_counterpart r h).
Proof.
  split; [|split].
  - intros r o Hr Hc. eapply conditional_counterpart_self; [exact Hr|].
    destruct Hc as [<-|[<-|[<-|[<-|[]]]]]; reflexivity.
  - intros c args Hin. unfold eval.
    destruct Hin as [[= <- <-]|[[= <- <-]|[[= <- <-]|[[= <- <-]|[]]]]];
      do 2 run_step;
      (erewrite (bind_ok (py_eq _ _));
       [|eapply py_eq_dataclass;
         [solve_lookup | solve_lookup | reflexivity | reflexivity
         | solve_tuple | solve_tuple]]);
      unfold ret; simpl; now rewrite Nat.eqb_refl, ?value_eqb_refl.
  - intros r. apply conditional_counterpart_idem.
Qed.

Lemma bind_args_eqb fs : forall (args1 args2 : list value) kvs1 kvs2,
  bind_args fs args1 = Some kvs1 -> bind_args fs args2 = Some kvs2 ->
  tuple_eqb args1 args2 = true ->
  tuple_eqb (map snd kvs1) (map snd kvs2) = true.
Proof.
  induction fs as [|f fs IH]; intros [|a1 args1] [|a2 args2] kvs1 kvs2;
    simpl; try discriminate.
  - now intros [= <-] [= <-].
  - destruct (f_default f) as [d|]; [|discriminate].
    destruct (bind_args fs []) as [kvs|]; [|discriminate].
    intros [= <-] [= <-] _. simpl.
    now rewrite value_eqb_refl, tuple_eqb_refl.
  - destruct (bind_args fs args1) as [k1|] eqn:H1; [|discriminate].
    destruct (bind_args fs args2) as [k2|] eqn:H2; [|discriminate].
    intros [= <-] [= <-] [Ha Hargs]%andb_prop. simpl.
    now rewrite Ha, (IH _ _ _ _ H1 H2 Hargs).
Qed.

(** Equal edits hash alike. *)
Lemma py_eq_true_hash (a b : loc) (h : heap) :
  py_eq a b h = (Ok true, h) ->
  exists n, py_hash a h = (Ok n, h) /\ py_hash b h = (Ok n, h).
Proof.
  intros Heq.
  destruct (h !! a) as [oa|] eqn:Ha;
    [|unfold py_eq, type_of, bind, get_object in Heq; now rewrite Ha in Heq].
  destruct (h !! b) as [ob|] eqn:Hb;
    [|unfold py_eq in Heq;
      rewrite (bind_ok _ _ _ _ _ (type_of_Some _ _ _ Ha)) in Heq;
      unfold type_of, bind, get_object in Heq; now rewrite Hb in Heq].
  destruct (decide (ob_class oa = ob_class ob)) as [Hc|Hc];
    [|rewrite (py_eq_class_neq a b h oa ob Ha Hb Hc) in Heq; discriminate].
  destruct (is_dataclass (ob_class oa)) eqn:Hdc.
  - pose proof (read_only_run _ h (read_only_dataclass_tuple (ob_class oa) a)) as Hta.
    pose proof (read_only_run _ h (read_only_dataclass_tuple (ob_class oa) b)) as Htb.
    destruct (eval (dataclass_tuple (ob_class oa) a) h) as [ta|e] eqn:Ea.
    + destruct (eval (dataclass_tuple (ob_class oa) b) h) as [tb|e] eqn:Eb.
      * rewrite (py_eq_dataclass a b h oa ob ta tb Ha Hb (eq_sym Hc) Hdc Hta Htb)
          in Heq.
        injection Heq as Heq. exists (hash_tuple (map value_hash ta)). split.
        -- now apply (py_hash_dataclass a h oa ta).
        -- rewrite (tuple_hash_eqb _ _ Heq).
           apply (py_hash_dataclass b h ob tb); [exact Hb| |]; now rewrite <- Hc.
      * rewrite (py_eq_dataclass_raise a b h oa ob e Ha Hb (eq_sym Hc) Hdc)
          in Heq by eauto.
        discriminate.
    + rewrite (py_eq_dataclass_raise a b h oa ob e Ha Hb (eq_sym Hc) Hdc)
        in Heq by eauto.
      discriminate.
  - assert (Hdc' : is_dataclass (ob_class ob) = false) by now rewrite <- Hc.
    destruct (decide (a = b)) as [->|Hab].
    + exists (hash_id b). unfold py_hash.
      now rewrite (bind_ok _ _ _ _ _ (type_of_Some _ _ _ Hb)), Hdc'.
    + exfalso. apply Nat.eqb_neq in Hab.
      assert (Hba : Nat.eqb b a = false) by (now rewrite Nat.eqb_sym).
      unfold py_eq in Heq.
      rewrite (bind_ok _ _ _ _ _ (type_of_Some _ _ _ Ha)) in Heq.
      rewrite (bind_ok _ _ _ _ _ (type_of_Some _ _ _ Hb)) in Heq.
      rewrite Hc, cls_is_refl in Heq.
      cbv zeta in Heq. simpl negb in Heq. simpl andb in Heq. cbv iota in Heq.
      rewrite (bind_ok _ _ _ _ _ (type_eq_plain a b h oa Ha Hdc)), Hab in Heq.
      rewrite (bind_ok _ _ _ _ _ (type_eq_plain b a h ob Hb Hdc')), Hba in Heq.
      discriminate.
Qed.

(** C7. Equality is by value, and hashing follows it.  Two calls of one
    class with equal arguments return two different objects that compare
    equal, hash alike and match as [dict] keys and [set] members; and
    whenever [a == b] holds of two stored objects, [hash(a)] and [hash(b)]
    are the same number. *)
Theorem value_equality_and_hash (h : heap) :
  (forall c args1 args2 a h1 b h2,
     In c edit_variants ->
     call c args1 h = (Ok a, h1) -> call c args2 h1 = (Ok b, h2) ->
     tuple_eqb args1 args2 = true ->
     a <> b
     /\ py_eq a b h2 = (Ok true, h2)
     /\ key_match a b h2 = (Ok true, h2))
  /\ (forall a b,
        py_eq a b h = (Ok true, h) ->
        exists n, py_hash a h = (Ok n, h) /\ py_hash b h = (Ok n, h)).
Proof.
  split; [|intros a b; apply py_eq_true_hash].
  intros c args1 args2 a h1 b h2 Hc Hcall1 Hcall2 Hargs.
  assert (Hdc : is_dataclass c = true).
  { destruct c; simpl in Hc; try reflexivity; exfalso; intuition discriminate. }
  destruct (call_dataclass_inv c args1 h a h1 Hdc Hcall1) as (kvs1 & Hb1 & -> & ->).
  destruct (call_dataclass_inv c args2 _ b h2 Hdc Hcall2) as (kvs2 & Hb2 & -> & ->).
  set (o1 := Object c (store_all kvs1 [])).
  set (o2 := Object c (store_all kvs2 [])).
  assert (Ha : ((h ++ [o1]) ++ [o2]) !! length h = Some o1) by solve_lookup.
  assert (Hb : ((h ++ [o1]) ++ [o2]) !! length (h ++ [o1]) = Some o2)
    by solve_lookup.
  assert (Hne : length h <> length (h ++ [o1]))
    by (rewrite length_app; simpl; lia).
  pose proof (constructed_tuple c args1 kvs1 _ _ Hb1 Ha) as Hta.
  pose proof (constructed_tuple c args2 kvs2 _ _ Hb2 Hb) as Htb.
  pose proof (bind_args_eqb _ _ _ _ _ Hb1 Hb2 Hargs) as Ht.
  assert (Heq : py_eq (length h) (length (h ++ [o1])) ((h ++ [o1]) ++ [o2])
                = (Ok true, (h ++ [o1]) ++ [o2])).
  { rewrite (py_eq_dataclass _ _ _ o1 o2 _ _ Ha Hb eq_refl Hdc Hta Htb).
    now rewrite Ht. }
  repeat split; [exact Hne | exact Heq |].
  unfold key_match.
  rewrite (bind_ok _ _ _ _ _ (py_hash_dataclass _ _ o1 _ Ha Hdc Hta)).
  rewrite (bind_ok _ _ _ _ _ (py_hash_dataclass _ _ o2 _ Hb Hdc Htb)).
  rewrite (tuple_hash_eqb _ _ Ht), Z.eqb_refl.
  apply Nat.eqb_neq in Hne. now rewrite Hne.
Qed.

(** C8. Nothing checks [old != new] in [Sub]: [Sub(x, x)] is built without
    error, it is an instance of [Sub] and not of [Copy], and its projection
    equals [ConditionalSub(x)] and does not equal [ConditionalCopy()]. *)
Theorem Sub_same_symbol (h : heap) (x : value) :
  call Sub [x; x] h
  = (Ok (length h), h ++ [Object Sub [("old", x); ("new", x)]])
  /\ eval (s <- call Sub [x; x] ;; t <- type_of s ;;
           ret (cls_is t Sub, issubclass t Copy)) h = Ok (true, false)
  /\ eval (s <- call Sub [x; x] ;;
           c <- conditional_counterpart s ;;
           k <- call ConditionalSub [x] ;;
           py_eq c k) h = Ok true
  /\ eval (s <- call Sub [x; x] ;;
           c <- conditional_counterpart s ;;
           k <- call ConditionalCopy [] ;;
           py_eq c k) h = Ok false.
Proof.
  unfold eval. repeat split.
  - apply call_Sub.
  - run_step. erewrite (bind_ok (type_of _)) by (apply type_of_Some; solve_lookup).
    reflexivity.
  - do 3 run_step. run_eq. simpl. now rewrite value_eqb_refl.
  - do 3 run_step. run_neq. reflexivity.
Qed.

(** C10. [Copy] inherits from [Sub], yet [Copy(x, x)] and [Sub(x, x)],
    which hold the same fields and have the same hash, are unequal on
    either side of [==], and neither matches the other as a [dict] key or
    [set] member. *)
Theorem Copy_Sub_distinct (h : heap) (x : value) :
  issubclass Copy Sub = true
  /\ eval (c <- call Copy [x; x] ;; s <- call Sub [x; x] ;;
           oc <- get_object c ;; os <- get_object s ;;
           ret (ob_dict oc, ob_dict os)) h
     = Ok ([("old", x); ("new", x)], [("old", x); ("new", x)])
  /\ eval (c <- call Copy [x; x] ;; s <- call Sub [x; x] ;; py_eq c s) h
     = Ok false
  /\ eval (c <- call Copy [x; x] ;; s <- call Sub [x; x] ;; py_eq s c) h
     = Ok false
  /\ eval (c <- call Copy [x; x] ;; s <- call Sub [x; x] ;;
           hc <- py_hash c ;; hs <- py_hash s ;; ret (Z.eqb hc hs)) h
     = Ok true
  /\ eval (c <- call Copy [x; x] ;; s <- call Sub [x; x] ;; key_match c s) h
     = Ok false
  /\ eval (c <- call Copy [x; x] ;; s <- call Sub [x; x] ;; key_match s c) h
     = Ok false.
Proof.
  assert (Hneq : forall a b : nat, a <> b -> Nat.eqb a b = false)
    by (intros a b; apply Nat.eqb_neq).
  unfold eval. split; [reflexivity|].
  repeat split;
    rewrite (bind_ok _ _ _ _ _ (call_Copy_same _ _)); run_step.
  - do 2 (erewrite (bind_ok (get_object _)) by (apply get_object_Some; solve_lookup)).
    reflexivity.
  - run_neq. reflexivity.
  - run_neq. reflexivity.
  - do 2 (erewrite (bind_ok (py_hash _));
          [|eapply py_hash_dataclass; [solve_lookup | reflexivity | solve_tuple]]).
    unfold ret. simpl. now rewrite Z.eqb_refl.
  - unfold key_match.
    do 2 (erewrite (bind_ok (py_hash _));
          [|eapply py_hash_dataclass; [solve_lookup | reflexivity | solve_tuple]]).
    simpl map. rewrite Z.eqb_refl.
    rewrite Hneq by (rewrite length_app; simpl; lia).
    run_neq. reflexivity.
  - unfold key_match.
    do 2 (erewrite (bind_ok (py_hash _));
          [|eapply py_hash_dataclass; [solve_lookup | reflexivity | solve_tuple]]).
    simpl map. rewrite Z.eqb_refl.
    rewrite Hneq by (rewrite length_app; simpl; lia).
    run_neq. reflexivity.
Qed.

End Lawful.

(** * Further properties of the module *)

(** ** When a call returns *)


(** ** The invariant of [Copy] *)

(** X2. Every [Copy] a call has returned holds equal [old] and [new], and
    still does after any sequence of operations of the module: the check
    in [__post_init__] and the frozen fields together make [old == new] an
    invariant of the instance, not only of its construction. *)
Theorem Copy_invariant
    (args : list value) (h h1 : heap) (e : loc) (ops : list op) :
  call Copy args h = (Ok e, h1) ->
  exists old new,
    eval (py_getattr e "old") (run_ops ops h1) = Ok old
    /\ eval (py_getattr e "new") (run_ops ops h1) = Ok new
    /\ value_eqb old new = true.
Proof.
  intros Hcall.
  destruct args as [|old [|new [|x args]]];
    try (vm_compute in Hcall; discriminate).
  rewrite call_Copy in Hcall. unfold value_neb in Hcall.
  destruct (value_eqb old new) eqn:Heq; [|discriminate].
  injection Hcall as <- <-.
  set (o := Object Copy [("old", old); ("new", new)]).
  assert (He : (h ++ [o]) !! length h = Some o) by apply lookup_fresh.
  assert (Hops : run_ops ops (h ++ [o]) !! length h = Some o)
    by (apply run_ops_frozen; [exact He | reflexivity]).
  exists old, new. repeat split; [| |exact Heq]; unfold eval.
  - now rewrite (py_getattr_dict _ "old" _ o old Hops).
  - now rewrite (py_getattr_dict _ "new" _ o new Hops).
Qed.

(** Reading a field of a stored object can only fail for want of the
    attribute. *)
Lemma py_getattr_raises r name (h : heap) (o : object) (x : exn) :
  h !! r = Some o -> eval (py_getattr r name) h = Raise x ->
  x = AttributeError.
Proof.
  intros Hr. unfold eval, py_getattr.
  rewrite (bind_ok _ _ _ _ _ (get_object_Some _ _ _ Hr)).
  destruct (dict_get name (ob_dict o)); [discriminate|].
  destruct (class_attr _ _); [discriminate|]. now intros [= <-].
Qed.

(** ** Where the projection is not defined *)


(** X4. A call of [GenerativeEdit], with any arguments, raises [TypeError]
    before anything is allocated; and on no instance that a call of any
    class has returned does [conditional_counterpart] raise
    [NotImplementedError]: the body of the abstract method never runs. *)
Theorem abstract_method_never_runs
    (c : cls) (args args' : list value) (h h' h1 : heap) (e : loc) :
  call GenerativeEdit args' h' = (Raise TypeError, h')
  /\ (call c args h = (Ok e, h1) ->
      eval (conditional_counterpart e) h1 <> Raise NotImplementedError).
Proof.
  split; [reflexivity|]. intros Hcall.
  assert (Hc : c <> GenerativeEdit)
    by (intros ->; vm_compute in Hcall; discriminate).
  assert (He : exists d, h1 !! e = Some (Object c d)).
  { destruct (is_dataclass c) eqn:Hdc.
    - destruct (call_dataclass_inv c args h e h1 Hdc Hcall) as (kvs & _ & -> & ->).
      eexists. apply lookup_fresh.
    - assert (Hpl : c = Edit \/ c = ConditionalEdit)
        by (destruct c; try discriminate; try congruence; tauto).
      destruct args as [|a args];
        [|destruct Hpl as [-> | ->]; vm_compute in Hcall; discriminate].
      destruct Hpl as [-> | ->]; injection Hcall as <- <-;
        eexists; apply lookup_fresh. }
  destruct He as [d He].
  unfold eval, conditional_counterpart.
  rewrite (bind_ok _ _ _ _ _ (type_of_Some _ _ _ He)). simpl ob_class.
  destruct c; try congruence; simpl; try discriminate.
  - unfold Sub_conditional_counterpart, bind.
    rewrite (read_only_run _ _ (read_only_py_getattr e "new")).
    destruct (eval (py_getattr e "new") h1) as [new|x] eqn:Hg.
    + rewrite call_ConditionalSub. discriminate.
    + rewrite (py_getattr_raises _ _ _ _ _ He Hg). discriminate.
  - unfold Ins_conditional_counterpart, bind.
    rewrite (read_only_run _ _ (read_only_py_getattr e "new")).
    destruct (eval (py_getattr e "new") h1) as [new|x] eqn:Hg.
    + rewrite call_ConditionalIns. discriminate.
    + rewrite (py_getattr_raises _ _ _ _ _ He Hg). discriminate.
Qed.

(** ** What the projection keeps *)

Lemma bind_args_values fs : forall (args : list value) kvs,
  Forall (fun f => f_default f = None) fs ->
  bind_args fs args = Some kvs -> map snd kvs = args.
Proof.
  induction fs as [|f fs IH]; intros [|a args] kvs Hnd; simpl.
  - now intros [= <-].
  - discriminate.
  - apply Forall_cons in Hnd as [Hf _]. now rewrite Hf.
  - apply Forall_cons in Hnd as [_ Hnd].
    destruct (bind_args fs args) as [kvs'|] eqn:Hb; [|discriminate].
    intros [= <-]. simpl. now rewrite (IH _ _ Hnd Hb).
Qed.

Lemma fields_no_default c :
  In c (conditional_variants ++ generative_variants) ->
  Forall (fun f => f_default f = None) (fields c).
Proof.
  intros Hc. simpl in Hc.
  destruct Hc as [<-|[<-|[<-|[<-|[<-|[<-|[<-|[<-|[]]]]]]]]];
    repeat constructor.
Qed.

(** X5. The generated [__hash__] hashes the tuple of fields and nothing of the
    class: instances of two different payload-carrying classes built from
    the same arguments ([Ins(n)], [ConditionalIns(n)], [ConditionalSub(n)],
    [Del(n)]; [Sub(o, n)], [Copy(n, n)]; [ConditionalCopy()],
    [ConditionalDel()]) have the same hash, although they are unequal. *)
Theorem hash_ignores_class
    (c1 c2 : cls) (args : list value) (h h1 h2 : heap) (a b : loc) :
  In c1 (conditional_variants ++ generative_variants) ->
  In c2 (conditional_variants ++ generative_variants) ->
  c1 <> c2 ->
  call c1 args h = (Ok a, h1) -> call c2 args h1 = (Ok b, h2) ->
  py_hash a h2 = (Ok (hash_tuple (map value_hash args)), h2)
  /\ py_hash b h2 = (Ok (hash_tuple (map value_hash args)), h2)
  /\ py_eq a b h2 = (Ok false, h2).
Proof.
  intros Hc1 Hc2 Hne Hcall1 Hcall2.
  assert (Hdc : forall c, In c (conditional_variants ++ generative_variants) ->
                          is_dataclass c = true).
  { intros c Hc. simpl in Hc.
    destruct Hc as [<-|[<-|[<-|[<-|[<-|[<-|[<-|[<-|[]]]]]]]]]; reflexivity. }
  destruct (call_dataclass_inv c1 args h a h1 (Hdc _ Hc1) Hcall1)
    as (kvs1 & Hb1 & -> & ->).
  destruct (call_dataclass_inv c2 args _ b h2 (Hdc _ Hc2) Hcall2)
    as (kvs2 & Hb2 & -> & ->).
  set (o1 := Object c1 (store_all kvs1 [])).
  set (o2 := Object c2 (store_all kvs2 [])).
  assert (Ha : ((h ++ [o1]) ++ [o2]) !! length h = Some o1) by solve_lookup.
  assert (Hb : ((h ++ [o1]) ++ [o2]) !! length (h ++ [o1]) = Some o2)
    by solve_lookup.
  pose proof (constructed_tuple c1 args kvs1 _ _ Hb1 Ha) as Hta.
  pose proof (constructed_tuple c2 args kvs2 _ _ Hb2 Hb) as Htb.
  rewrite (bind_args_values _ _ _ (fields_no_default _ Hc1) Hb1) in Hta.
  rewrite (bind_args_values _ _ _ (fields_no_default _ Hc2) Hb2) in Htb.
  repeat split.
  - apply (py_hash_dataclass _ _ o1 _ Ha (Hdc _ Hc1) Hta).
  - apply (py_hash_dataclass _ _ o2 _ Hb (Hdc _ Hc2) Htb).
  - apply (py_eq_class_neq _ _ _ o1 o2 Ha Hb). exact Hne.
Qed.


(** ** Base-class instances *)

(** What a returning call leaves: the new instance, at the next free
    reference. *)
Lemma call_returns_object c (args : list value) (h h1 : heap) (e : loc) :
  call c args h = (Ok e, h1) ->
  exists d, e = length h /\ h1 = h ++ [Object c d].
Proof.
  intros Hcall. destruct (is_dataclass c) eqn:Hdc.
  - destruct (call_dataclass_inv c args h e h1 Hdc Hcall) as (kvs & _ & -> & ->).
    eauto.
  - destruct c; try discriminate Hdc;
      destruct args as [|a args]; try (vm_compute in Hcall; discriminate);
      injection Hcall as <- <-; eauto.
Qed.



(** ** Hash and equality over time *)

(** A read-only computation followed by another gives the same outcome in
    two stores where each part does. *)
Lemma eval_bind_agree {T U} (m : M T) (k : T -> M U) (h h' : heap) :
  read_only m -> eval m h' = eval m h ->
  (forall t, eval (k t) h' = eval (k t) h) ->
  eval (bind m k) h' = eval (bind m k) h.
Proof.
  intros Hm Heq Hk. unfold eval. unfold bind.
  rewrite (read_only_run m h Hm), (read_only_run m h' Hm), Heq.
  destruct (eval m h); [apply Hk | reflexivity].
Qed.

Lemma type_of_local r (h h' : heap) :
  h' !! r = h !! r -> eval (type_of r) h' = eval (type_of r) h.
Proof.
  intros Heq. unfold eval, type_of, bind, get_object. rewrite Heq.
  now destruct (h !! r).
Qed.

Lemma getattrs_local r names (h h' : heap) :
  h' !! r = h !! r -> eval (getattrs r names) h' = eval (getattrs r names) h.
Proof.
  intros Heq. induction names as [|name names IH]; simpl; [reflexivity|].
  apply eval_bind_agree;
    [apply read_only_py_getattr | now apply py_getattr_local |].
  intros v. apply eval_bind_agree;
    [apply read_only_getattrs | exact IH | reflexivity].
Qed.

Lemma type_eq_local a b (h h' : heap) :
  h' !! a = h !! a -> h' !! b = h !! b ->
  eval (type_eq a b) h' = eval (type_eq a b) h.
Proof.
  intros Ha Hb. unfold type_eq.
  apply eval_bind_agree;
    [apply read_only_type_of | now apply type_of_local |].
  intros t. destruct (is_dataclass t); [|reflexivity]. unfold dataclass_eq.
  apply eval_bind_agree;
    [apply read_only_type_of | now apply type_of_local |]. intros co.
  apply eval_bind_agree;
    [apply read_only_type_of | now apply type_of_local |]. intros cs.
  destruct (cls_is co cs); [|reflexivity].
  apply eval_bind_agree;
    [apply read_only_dataclass_tuple | now apply getattrs_local |]. intros t1.
  apply eval_bind_agree;
    [apply read_only_dataclass_tuple | now apply getattrs_local |]. intros t2.
  reflexivity.
Qed.

Lemma py_eq_local a b (h h' : heap) :
  h' !! a = h !! a -> h' !! b = h !! b ->
  eval (py_eq a b) h' = eval (py_eq a b) h.
Proof.
  intros Ha Hb. unfold py_eq.
  apply eval_bind_agree;
    [apply read_only_type_of | now apply type_of_local |]. intros ta.
  apply eval_bind_agree;
    [apply read_only_type_of | now apply type_of_local |]. intros tb.
  cbv zeta.
  destruct (negb (cls_is ta tb) && issubclass tb ta).
  - apply eval_bind_agree;
      [apply read_only_type_eq | now apply type_eq_local |].
    intros [v|]; [reflexivity|].
    apply eval_bind_agree;
      [apply read_only_type_eq | now apply type_eq_local |].
    intros [v|]; reflexivity.
  - apply eval_bind_agree;
      [apply read_only_type_eq | now apply type_eq_local |].
    intros [v|]; [reflexivity|].
    apply eval_bind_agree;
      [apply read_only_type_eq | now apply type_eq_local |].
    intros [v|]; reflexivity.
Qed.

Lemma py_hash_local r (h h' : heap) :
  h' !! r = h !! r -> eval (py_hash r) h' = eval (py_hash r) h.
Proof.
  intros Heq. unfold py_hash.
  apply eval_bind_agree;
    [apply read_only_type_of | now apply type_of_local |]. intros t.
  destruct (is_dataclass t); [|reflexivity]. unfold dataclass_hash.
  apply eval_bind_agree;
    [apply read_only_dataclass_tuple | now apply getattrs_local |].
  reflexivity.
Qed.

Lemma py_str_local r (h h' : heap) :
  h' !! r = h !! r -> eval (py_str r) h' = eval (py_str r) h.
Proof.
  intros Heq. unfold py_str, py_repr.
  apply eval_bind_agree;
    [apply read_only_type_of | now apply type_of_local |]. intros t.
  destruct (find_def t "__repr__") as [[]|];
    try (destruct (is_dataclass t); [|reflexivity]; unfold dataclass_repr;
         apply eval_bind_agree;
         [apply read_only_dataclass_tuple | now apply getattrs_local |];
         reflexivity).
  - apply eval_bind_agree;
      [apply read_only_py_getattr | now apply py_getattr_local |].
    intros []; reflexivity.
  - apply eval_bind_agree;
      [apply read_only_py_getattr | now apply py_getattr_local |].
    intros []; reflexivity.
Qed.

(** X8. What [hash], [==] and [str] answer about stored edits never changes:
    after any sequence of operations of the module (calls, projections,
    attempted assignments and deletions included) they give what they gave
    before.  This is what makes an edit safe to keep as a [dict] key. *)
Theorem hash_eq_str_are_stable
    (h : heap) (a b : loc) (oa ob : object) (ops : list op) :
  h !! a = Some oa -> h !! b = Some ob ->
  In (ob_class oa) edit_variants -> In (ob_class ob) edit_variants ->
  eval (py_hash a) (run_ops ops h) = eval (py_hash a) h
  /\ eval (py_eq a b) (run_ops ops h) = eval (py_eq a b) h
  /\ eval (py_str a) (run_ops ops h) = eval (py_str a) h.
Proof.
  intros Ha Hb Hca Hcb.
  assert (Hdc : forall o : object, In (ob_class o) edit_variants ->
                                   is_dataclass (ob_class o) = true).
  { intros o Hc. destruct (ob_class o); simpl in Hc; try reflexivity;
      exfalso; intuition discriminate. }
  assert (Ha' : run_ops ops h !! a = h !! a)
    by (rewrite Ha; apply run_ops_frozen; auto).
  assert (Hb' : run_ops ops h !! b = h !! b)
    by (rewrite Hb; apply run_ops_frozen; auto).
  repeat split.
  - now apply py_hash_local.
  - now apply py_eq_local.
  - now apply py_str_local.
Qed.

(** ** Equality as a relation *)

Lemma getattrs_raises r names (h : heap) (o : object) (x : exn) :
  h !! r = Some o -> eval (getattrs r names) h = Raise x ->
  x = AttributeError.
Proof.
  intros Hr. induction names as [|name names IH]; simpl; [discriminate|].
  unfold eval, bind.
  rewrite (read_only_run _ h (read_only_py_getattr r name)).
  destruct (eval (py_getattr r name) h) as [v|e] eqn:Hv.
  - rewrite (read_only_run _ h (read_only_getattrs r names)).
    destruct (eval (getattrs r names) h) as [vs|e]; [discriminate|].
    simpl. intros [= <-]. now apply IH.
  - simpl. intros [= <-]. exact (py_getattr_raises _ _ _ _ _ Hr Hv).
Qed.

(** Between two instances of one plain class [==] is identity. *)
Lemma py_eq_plain a b (h : heap) (oa ob : object) :
  h !! a = Some oa -> h !! b = Some ob -> ob_class ob = ob_class oa ->
  is_dataclass (ob_class oa) = false ->
  py_eq a b h = (Ok (Nat.eqb a b), h).
Proof.
  intros Ha Hb Hc Hdc.
  assert (Hdc' : is_dataclass (ob_class ob) = false) by now rewrite Hc.
  unfold py_eq.
  rewrite (bind_ok _ _ _ _ _ (type_of_Some _ _ _ Ha)).
  rewrite (bind_ok _ _ _ _ _ (type_of_Some _ _ _ Hb)).
  rewrite Hc, cls_is_refl. cbv zeta. simpl negb. simpl andb. cbv iota.
  rewrite (bind_ok _ _ _ _ _ (type_eq_plain a b h oa Ha Hdc)).
  destruct (Nat.eqb a b) eqn:Hab; [reflexivity|].
  rewrite (bind_ok _ _ _ _ _ (type_eq_plain b a h ob Hb Hdc')).
  rewrite Nat.eqb_sym, Hab. unfold ret. reflexivity.
Qed.

(** What [a == b] being [True] says of the two objects. *)
Lemma py_eq_true_inv a b (h : heap) :
  py_eq a b h = (Ok true, h) ->
  exists oa ob,
    h !! a = Some oa /\ h !! b = Some ob /\ ob_class ob = ob_class oa /\
    ((is_dataclass (ob_class oa) = true /\
      exists ta tb,
        dataclass_tuple (ob_class oa) a h = (Ok ta, h) /\
        dataclass_tuple (ob_class oa) b h = (Ok tb, h) /\
        tuple_eqb ta tb = true)
     \/ (is_dataclass (ob_class oa) = false /\ a = b)).
Proof.
  intros Heq.
  destruct (h !! a) as [oa|] eqn:Ha;
    [|unfold py_eq, type_of, bind, get_object in Heq; now rewrite Ha in Heq].
  destruct (h !! b) as [ob|] eqn:Hb;
    [|unfold py_eq in Heq;
      rewrite (bind_ok _ _ _ _ _ (type_of_Some _ _ _ Ha)) in Heq;
      unfold type_of, bind, get_object in Heq; now rewrite Hb in Heq].
  destruct (decide (ob_class oa = ob_class ob)) as [Hc|Hc];
    [|rewrite (py_eq_class_neq a b h oa ob Ha Hb Hc) in Heq; discriminate].
  exists oa, ob. repeat split; [congruence|].
  destruct (is_dataclass (ob_class oa)) eqn:Hdc; [left | right]; split;
    try reflexivity.
  - pose proof (read_only_run _ h (read_only_dataclass_tuple (ob_class oa) a))
      as Hta.
    pose proof (read_only_run _ h (read_only_dataclass_tuple (ob_class oa) b))
      as Htb.
    destruct (eval (dataclass_tuple (ob_class oa) a) h) as [ta|e].
    + destruct (eval (dataclass_tuple (ob_class oa) b) h) as [tb|e].
      * rewrite (py_eq_dataclass a b h oa ob ta tb Ha Hb (eq_sym Hc) Hdc Hta Htb)
          in Heq.
        injection Heq as Heq. now exists ta, tb.
      * rewrite (py_eq_dataclass_raise a b h oa ob e Ha Hb (eq_sym Hc) Hdc)
          in Heq by eauto.
        discriminate.
    + rewrite (py_eq_dataclass_raise a b h oa ob e Ha Hb (eq_sym Hc) Hdc)
        in Heq by eauto.
      discriminate.
  - rewrite (py_eq_plain a b h oa ob Ha Hb (eq_sym Hc) Hdc) in Heq.
    injection Heq as Heq. now apply Nat.eqb_eq.
Qed.

(** ** Comparing and hashing never raise *)


Section Equivalence.

(** The payload's [==] is an equivalence. *)
Hypothesis sym_eqb_reflexive : forall x : A, sym_eqb x x = true.
Hypothesis sym_eqb_symmetric : forall x y : A, sym_eqb x y = sym_eqb y x.
Hypothesis sym_eqb_transitive : forall x y z : A,
  sym_eqb x y = true -> sym_eqb y z = true -> sym_eqb x z = true.

Lemma tuple_eqb_reflexive (t : list value) : tuple_eqb t t = true.
Proof.
  induction t as [|[s|x] t IH]; simpl; [reflexivity| |].
  - now rewrite String.eqb_refl.
  - now rewrite sym_eqb_reflexive.
Qed.

Lemma tuple_eqb_symmetric (t1 t2 : list value) :
  tuple_eqb t1 t2 = tuple_eqb t2 t1.
Proof.
  revert t2. induction t1 as [|x t1 IH]; intros [|y t2]; simpl;
    try reflexivity.
  rewrite IH. f_equal. destruct x, y; simpl; try reflexivity.
  - apply String.eqb_sym.
  - apply sym_eqb_symmetric.
Qed.

Lemma tuple_eqb_transitive (t1 t2 t3 : list value) :
  tuple_eqb t1 t2 = true -> tuple_eqb t2 t3 = true -> tuple_eqb t1 t3 = true.
Proof.
  revert t2 t3.
  induction t1 as [|x t1 IH]; intros [|y t2] [|z t3]; simpl;
    try discriminate; [reflexivity|].
  intros [Hxy H12]%andb_prop [Hyz H23]%andb_prop.
  rewrite (IH _ _ H12 H23), andb_true_r.
  destruct x, y, z; simpl in *; try discriminate.
  - apply String.eqb_eq in Hxy, Hyz. subst. apply String.eqb_refl.
  - eapply sym_eqb_transitive; eauto.
Qed.

(** X9. When the payload's [==] is an equivalence, so is [==] on edits: every
    instance a call has returned equals itself; [a == b] and [b == a]
    have the same outcome for any two references, raised exceptions
    included; and [a == b] with [b == c] gives [a == c]. *)
Theorem py_eq_is_an_equivalence (h : heap) :
  (forall c args h0 a, call c args h0 = (Ok a, h) ->
     py_eq a a h = (Ok true, h))
  /\ (forall a b, eval (py_eq a b) h = eval (py_eq b a) h)
  /\ (forall a b c,
        py_eq a b h = (Ok true, h) -> py_eq b c h = (Ok true, h) ->
        py_eq a c h = (Ok true, h)).
Proof.
  split; [|split].
  - intros c args h0 a Hcall.
    destruct (is_dataclass c) eqn:Hdc.
    + destruct (call_dataclass_inv c args h0 a h Hdc Hcall)
        as (kvs & Hb & -> & ->).
      pose proof (lookup_fresh h0 (Object c (store_all kvs []))) as Ha.
      pose proof (constructed_tuple c args kvs _ _ Hb Ha) as Ht.
      rewrite (py_eq_dataclass _ _ _ _ _ _ _ Ha Ha eq_refl Hdc Ht Ht).
      now rewrite tuple_eqb_reflexive.
    + destruct (call_returns_object c args h0 h a Hcall) as (d & -> & ->).
      pose proof (lookup_fresh h0 (Object c d)) as Ha.
      rewrite (py_eq_plain _ _ _ _ _ Ha Ha eq_refl Hdc).
      now rewrite Nat.eqb_refl.
  - intros a b. unfold eval.
    destruct (h !! a) as [oa|] eqn:Ha; destruct (h !! b) as [ob|] eqn:Hb.
    + destruct (decide (ob_class oa = ob_class ob)) as [Hc|Hc].
      * destruct oa as [k da], ob as [kb db]. simpl in Hc. subst kb.
        set (oa := Object k da) in *. set (ob := Object k db) in *.
        destruct (is_dataclass k) eqn:Hdc.
        -- pose proof (read_only_run _ h (read_only_dataclass_tuple k a))
             as Hta.
           pose proof (read_only_run _ h (read_only_dataclass_tuple k b))
             as Htb.
           destruct (eval (dataclass_tuple k a) h) as [ta|ea] eqn:Ea;
             destruct (eval (dataclass_tuple k b) h) as [tb|eb] eqn:Eb.
           ++ rewrite (py_eq_dataclass a b h oa ob ta tb Ha Hb eq_refl Hdc Hta Htb).
              rewrite (py_eq_dataclass b a h ob oa tb ta Hb Ha eq_refl Hdc Htb Hta).
              simpl. now rewrite tuple_eqb_symmetric.
           ++ rewrite (py_eq_dataclass_raise a b h oa ob eb Ha Hb eq_refl Hdc)
                by (right; eauto).
              rewrite (py_eq_dataclass_raise b a h ob oa eb Hb Ha eq_refl Hdc)
                by (left; exact Htb).
              reflexivity.
           ++ rewrite (py_eq_dataclass_raise a b h oa ob ea Ha Hb eq_refl Hdc)
                by (left; exact Hta).
              rewrite (py_eq_dataclass_raise b a h ob oa ea Hb Ha eq_refl Hdc)
                by (right; eauto).
              reflexivity.
           ++ rewrite (py_eq_dataclass_raise a b h oa ob ea Ha Hb eq_refl Hdc)
                by (left; exact Hta).
              rewrite (py_eq_dataclass_raise b a h ob oa eb Hb Ha eq_refl Hdc)
                by (left; exact Htb).
              simpl.
              rewrite (getattrs_raises _ _ _ _ _ Ha Ea).
              now rewrite (getattrs_raises _ _ _ _ _ Hb Eb).
        -- rewrite (py_eq_plain a b h oa ob Ha Hb eq_refl Hdc).
           rewrite (py_eq_plain b a h ob oa Hb Ha eq_refl Hdc).
           simpl. now rewrite Nat.eqb_sym.
      * rewrite (py_eq_class_neq a b h oa ob Ha Hb Hc).
        now rewrite (py_eq_class_neq b a h ob oa Hb Ha) by congruence.
    + unfold py_eq.
      rewrite (bind_ok _ _ _ _ _ (type_of_Some _ _ _ Ha)).
      unfold type_of, bind, get_object. now rewrite Hb.
    + unfold py_eq.
      rewrite (bind_ok _ _ _ _ _ (type_of_Some _ _ _ Hb)).
      unfold type_of, bind, get_object. now rewrite Ha.
    + unfold py_eq, type_of, bind, get_object. now rewrite Ha, Hb.
  - intros a b c Hab Hbc.
    destruct (py_eq_true_inv a b h Hab)
      as (oa & ob & Ha & Hb & Hcab & [(Hdc & ta & tb & Hta & Htb & Ht)|(Hdc & ->)]);
      [|exact Hbc].
    destruct (py_eq_true_inv b c h Hbc)
      as (ob' & oc & Hb' & Hc & Hcbc & [(Hdc' & tb' & tc & Htb' & Htc & Ht')|(Hdc' & <-)]);
      [|exact Hab].
    assert (ob' = ob) by congruence. subst ob'.
    rewrite Hcab in Htb', Htc. rewrite Htb in Htb'. injection Htb' as <-.
    rewrite (py_eq_dataclass a c h oa oc ta tc Ha Hc (eq_trans Hcbc Hcab) Hdc Hta Htc).
    now rewrite (tuple_eqb_transitive _ _ _ Ht Ht').
Qed.

End Equivalence.

Section LawfulProjection.

Context `{!SymbolLaws A}.

(** X10. Each projection of a generative edit builds a new object: projecting
    the same edit twice gives two different objects, allocated one after
    the other, that hold the same fields and compare equal; nothing is
    cached on the edit. *)
Theorem generative_projection_allocates
    (c : cls) (args : list value) (h h1 : heap) (e : loc) :
  In c generative_variants -> call c args h = (Ok e, h1) ->
  exists o,
    (k1 <- conditional_counterpart e ;;
     k2 <- conditional_counterpart e ;;
     same <- py_eq k1 k2 ;;
     ret (k1, k2, same)) h1
    = (Ok (length h1, S (length h1), true), h1 ++ [o; o]).
Proof.
  intros Hc Hcall.
  destruct (call_generative_inv c args h e h1 Hc Hcall) as (d & -> & -> & Hnew).
  set (g := Object c d) in *.
  assert (He : (h ++ [g]) !! length h = Some g) by apply lookup_fresh.
  assert (Hlen : forall o : object,
             length ((h ++ [g]) ++ [o]) = S (length (h ++ [g])))
    by (intros o; rewrite (length_app (h ++ [g])); simpl; lia).
  assert (Hrun : forall o : object,
             conditional_counterpart (length h) (h ++ [g])
             = (Ok (length (h ++ [g])), (h ++ [g]) ++ [o]) ->
             conditional_counterpart (length h) ((h ++ [g]) ++ [o])
             = (Ok (length ((h ++ [g]) ++ [o])), ((h ++ [g]) ++ [o]) ++ [o]) ->
             py_eq (length (h ++ [g])) (length ((h ++ [g]) ++ [o]))
                   (((h ++ [g]) ++ [o]) ++ [o])
             = (Ok true, ((h ++ [g]) ++ [o]) ++ [o]) ->
             (k1 <- conditional_counterpart (length h) ;;
              k2 <- conditional_counterpart (length h) ;;
              same <- py_eq k1 k2 ;;
              ret (k1, k2, same)) (h ++ [g])
             = (Ok (length (h ++ [g]), S (length (h ++ [g])), true),
                (h ++ [g]) ++ [o; o])).
  { intros o H1 H2 H3.
    rewrite (bind_ok _ _ _ _ _ H1), (bind_ok _ _ _ _ _ H2),
      (bind_ok _ _ _ _ _ H3).
    unfold ret. rewrite Hlen. now rewrite <- (app_assoc (h ++ [g]) [o] [o]). }
  destruct Hc as [<-|[<-|[<-|[<-|[]]]]].
  - destruct Hnew as [new Hnew]; [now left|].
    exists (Object ConditionalSub [("new", new)]). apply Hrun.
    + eapply conditional_counterpart_Sub; eauto.
    + eapply conditional_counterpart_Sub; [solve_lookup | reflexivity | exact Hnew].
    + run_eq. simpl. now rewrite value_eqb_refl.
  - exists (Object ConditionalCopy []). apply Hrun.
    + eapply conditional_counterpart_Copy; eauto.
    + eapply conditional_counterpart_Copy; [solve_lookup | reflexivity].
    + run_eq. reflexivity.
  - exists (Object ConditionalDel []). apply Hrun.
    + eapply conditional_counterpart_Del; eauto.
    + eapply conditional_counterpart_Del; [solve_lookup | reflexivity].
    + run_eq. reflexivity.
  - destruct Hnew as [new Hnew]; [now right|].
    exists (Object ConditionalIns [("new", new)]). apply Hrun.
    + eapply conditional_counterpart_Ins; eauto.
    + eapply conditional_counterpart_Ins; [solve_lookup | reflexivity | exact Hnew].
    + run_eq. simpl. now rewrite value_eqb_refl.
Qed.

End LawfulProjection.

End Actions.

(** * Concrete runs over the string alphabet *)

Notation "x <- m ;; k" := (bind m (fun x => k))
  (at level 100, m at next level, right associativity).

#[export] Existing Instance string_symbol.
#[export] Existing Instance sample_builtins.

#[export] Instance string_symbol_laws : SymbolLaws string.
Proof.
  split.
  - intros x. apply String.eqb_refl.
  - intros x y Hxy. apply String.eqb_eq in Hxy. now subst.
Qed.

Local Abbreviation sym := (@VSym string).
Local Abbreviation tok := (@VStr string).
Local Abbreviation empty := (@nil (@object string)).

(** ** The model on small programs *)

Example run_Sub_repr :
  eval (s <- call Sub [sym "a"; sym "b"] ;; py_repr s) empty
  = Ok "Sub(old='a', new='b')".
Proof. reflexivity. Qed.

Example run_Copy_unequal :
  eval (call Copy [sym "a"; sym "b"]) empty
  = Raise (ValueError "Copy: old=a != new=b").
Proof. reflexivity. Qed.

Example run_Copy_arity : eval (call Copy [sym "a"]) empty = Raise TypeError.
Proof. reflexivity. Qed.

Example run_GenerativeEdit_abstract :
  eval (call GenerativeEdit []) empty = Raise TypeError.
Proof. reflexivity. Qed.

Example run_Start_no_counterpart :
  eval (s <- call Start [] ;; conditional_counterpart s) empty
  = Raise AttributeError.
Proof. reflexivity. Qed.

Example run_Ins_counterpart :
  (i <- call Ins [sym "z"] ;; conditional_counterpart i) empty
  = (Ok 1, [Object Ins [("new", sym "z")];
            Object ConditionalIns [("new", sym "z")]]).
Proof. reflexivity. Qed.

(** The guard against assignment is the dataclass's: an instance of the
    plain base class takes attributes. *)
Example run_plain_setattr :
  (e <- call ConditionalEdit [] ;; py_setattr e "new" (sym "b")) empty
  = (Ok tt, [Object ConditionalEdit [("new", sym "b")]]).
Proof. reflexivity. Qed.

(** ** The theorems at concrete inputs *)

(** The table on the symbols a, b and x, from the empty store. *)
Lemma conditional_counterpart_table_witness :
  SymbolLaws string
  /\ eval (e <- call Sub [sym "a"; sym "b"] ;;
           c <- conditional_counterpart e ;;
           k <- call ConditionalSub [sym "b"] ;;
           py_eq c k) empty = Ok true
  /\ eval (e <- call Copy [sym "x"; sym "x"] ;;
           c <- conditional_counterpart e ;;
           k <- call ConditionalCopy [] ;;
           py_eq c k) empty = Ok true.
Proof.
  split; [exact string_symbol_laws|].
  destruct (conditional_counterpart_table empty (sym "a") (sym "b") (sym "x"))
    as (HSub & HCopy & _).
  split; [exact HSub | exact HCopy].
Defined.

(** [Copy] of a and b is refused, [Copy] of a and a is built. *)
Lemma Copy_construction_witness :
  SymbolLaws string
  /\ value_neb (sym "a") (sym "b") = true
  /\ call Copy [sym "a"; sym "b"] empty
     = (Raise (ValueError "Copy: old=a != new=b"),
        [Object Copy [("old", sym "a"); ("new", sym "b")]])
  /\ call Copy [sym "a"; sym "a"] empty
     = (Ok 0, [Object Copy [("old", sym "a"); ("new", sym "a")]]).
Proof.
  split; [exact string_symbol_laws|]. split; [reflexivity|].
  destruct (Copy_construction empty (sym "a") (sym "b") (sym "a"))
    as (Hraise & Hok & _).
  split; [exact (Hraise eq_refl) | exact Hok].
Defined.

(** The projection of a [Sub] built in the empty store. *)
Lemma conditional_counterpart_total_witness :
  In Sub generative_variants
  /\ call Sub [sym "a"; sym "b"] empty
     = (Ok 0, [Object Sub [("old", sym "a"); ("new", sym "b")]])
  /\ exists k o,
       conditional_counterpart 0
         [Object Sub [("old", sym "a"); ("new", sym "b")]]
       = (Ok k, [Object Sub [("old", sym "a"); ("new", sym "b")]] ++ [o])
       /\ ob_class o = ConditionalSub.
Proof.
  assert (Hc : In Sub generative_variants) by (left; reflexivity).
  split; [exact Hc|]. split; [reflexivity|].
  destruct (conditional_counterpart_total Sub [sym "a"; sym "b"] empty
              [Object Sub [("old", sym "a"); ("new", sym "b")]] 0 Hc eq_refl)
    as (_ & k & o & Hk & _ & _ & Ho).
  exists k, o. split; [exact Hk | exact Ho].
Defined.

(** The projection of a stored [ConditionalSub] and of a fresh
    [ConditionalIns]. *)
Lemma conditional_projection_identity_witness :
  SymbolLaws string
  /\ [Object ConditionalSub [("new", sym "b")]] !! 0
     = Some (Object ConditionalSub [("new", sym "b")])
  /\ In ConditionalSub conditional_variants
  /\ conditional_counterpart 0 [Object ConditionalSub [("new", sym "b")]]
     = (Ok 0, [Object ConditionalSub [("new", sym "b")]])
  /\ eval (k <- call ConditionalIns [sym "b"] ;;
           k' <- conditional_counterpart k ;;
           e <- py_eq k' k ;;
           ret (Nat.eqb k' k, e))
          [Object ConditionalSub [("new", sym "b")]] = Ok (true, true).
Proof.
  assert (Hc : In ConditionalSub conditional_variants)
    by (right; left; reflexivity).
  split; [exact string_symbol_laws|]. split; [reflexivity|].
  split; [exact Hc|].
  destruct (conditional_projection_identity
              [Object ConditionalSub [("new", sym "b")]] (sym "b"))
    as (Hself & Heq & _).
  split.
  - exact (Hself 0 _ eq_refl Hc).
  - apply Heq. right; right; right; left; reflexivity.
Defined.

(** C5, as stated, fails: a [Start] built with another token is an
    instance of [Start] and does not equal [Start()]. *)
Lemma sentinel_identity_counterexample :
  eval (a <- call Start [tok "x"] ;; b <- call Start [] ;; py_eq a b) empty
  = Ok false.
Proof. reflexivity. Qed.

(** A stored [ConditionalCopy] against a stored [Copy]. *)
Lemma no_cross_kind_equality_witness :
  [Object ConditionalCopy []; Object Copy [("old", sym "a"); ("new", sym "a")]]
    !! 0 = Some (Object ConditionalCopy [])
  /\ [Object ConditionalCopy [];
      Object Copy [("old", sym "a"); ("new", sym "a")]] !! 1
     = Some (Object Copy [("old", sym "a"); ("new", sym "a")])
  /\ In ConditionalCopy conditional_variants
  /\ In Copy generative_variants
  /\ py_eq 0 1 [Object ConditionalCopy [];
                Object Copy [("old", sym "a"); ("new", sym "a")]]
     = (Ok false, [Object ConditionalCopy [];
                   Object Copy [("old", sym "a"); ("new", sym "a")]]).
Proof.
  assert (Hc : In ConditionalCopy conditional_variants) by (left; reflexivity).
  assert (Hg : In Copy generative_variants) by (right; left; reflexivity).
  split; [reflexivity|]. split; [reflexivity|].
  split; [exact Hc|]. split; [exact Hg|].
  exact (proj1 (no_cross_kind_equality
                  [Object ConditionalCopy [];
                   Object Copy [("old", sym "a"); ("new", sym "a")]]
                  0 1 _ _ eq_refl eq_refl (or_introl (conj Hc Hg)))).
Defined.

(** Two [Sub] built one after the other from p and q. *)
Lemma value_equality_and_hash_witness :
  SymbolLaws string
  /\ In Sub edit_variants
  /\ call Sub [sym "p"; sym "q"] empty
     = (Ok 0, [Object Sub [("old", sym "p"); ("new", sym "q")]])
  /\ call Sub [sym "p"; sym "q"]
       [Object Sub [("old", sym "p"); ("new", sym "q")]]
     = (Ok 1, [Object Sub [("old", sym "p"); ("new", sym "q")];
               Object Sub [("old", sym "p"); ("new", sym "q")]])
  /\ tuple_eqb [sym "p"; sym "q"] [sym "p"; sym "q"] = true
  /\ 0 <> 1
  /\ py_eq 0 1 [Object Sub [("old", sym "p"); ("new", sym "q")];
                Object Sub [("old", sym "p"); ("new", sym "q")]]
     = (Ok true, [Object Sub [("old", sym "p"); ("new", sym "q")];
                  Object Sub [("old", sym "p"); ("new", sym "q")]]).
Proof.
  assert (Hc : In Sub edit_variants)
    by (do 6 right; left; reflexivity).
  split; [exact string_symbol_laws|]. split; [exact Hc|].
  assert (Ht : tuple_eqb [sym "p"; sym "q"] [sym "p"; sym "q"] = true)
    by reflexivity.
  split; [reflexivity|]. split; [reflexivity|]. split; [exact Ht|].
  destruct (proj1 (value_equality_and_hash empty)
              Sub [sym "p"; sym "q"] [sym "p"; sym "q"] 0 _ 1 _
              Hc eq_refl eq_refl Ht) as (Hne & Heq & _).
  split; [exact Hne | exact Heq].
Defined.

(** [Sub] of x and x. *)
Lemma Sub_same_symbol_witness :
  SymbolLaws string
  /\ eval (s <- call Sub [sym "x"; sym "x"] ;;
           c <- conditional_counterpart s ;;
           k <- call ConditionalSub [sym "x"] ;;
           py_eq c k) empty = Ok true.
Proof.
  split; [exact string_symbol_laws|].
  destruct (Sub_same_symbol empty (sym "x")) as (_ & _ & Heq & _).
  exact Heq.
Defined.

(** A stored [Sub] through assignments, deletions and calls. *)
Lemma edits_are_immutable_witness :
  [Object Sub [("old", sym "a"); ("new", sym "b")]] !! 0
  = Some (Object Sub [("old", sym "a"); ("new", sym "b")])
  /\ In Sub edit_variants
  /\ py_setattr 0 "old" (sym "c")
       [Object Sub [("old", sym "a"); ("new", sym "b")]]
     = (Raise FrozenInstanceError,
        [Object Sub [("old", sym "a"); ("new", sym "b")]])
  /\ run_ops [op_setattr 0 "new" (sym "c"); op_call Ins [sym "d"];
              op_conditional_counterpart 0; op_delattr 0 "old"]
       [Object Sub [("old", sym "a"); ("new", sym "b")]] !! 0
     = Some (Object Sub [("old", sym "a"); ("new", sym "b")]).
Proof.
  assert (Hc : In Sub edit_variants)
    by (do 6 right; left; reflexivity).
  split; [reflexivity|]. split; [exact Hc|].
  destruct (edits_are_immutable
              [Object Sub [("old", sym "a"); ("new", sym "b")]] 0 _
              eq_refl Hc) as (Hset & _ & Hops & _).
  split; [apply Hset | apply Hops].
Defined.

(** [Copy] of x and x against [Sub] of x and x. *)
Lemma Copy_Sub_distinct_witness :
  SymbolLaws string
  /\ eval (c <- call Copy [sym "x"; sym "x"] ;;
           s <- call Sub [sym "x"; sym "x"] ;;
           py_eq c s) empty = Ok false
  /\ eval (c <- call Copy [sym "x"; sym "x"] ;;
           s <- call Sub [sym "x"; sym "x"] ;;
           py_eq s c) empty = Ok false.
Proof.
  split; [exact string_symbol_laws|].
  destruct (Copy_Sub_distinct empty (sym "x")) as (_ & _ & H1 & H2 & _).
  split; [exact H1 | exact H2].
Defined.

(** ** The further properties at concrete inputs *)

(** A [Copy] of a and a, then an attempt to overwrite [old]. *)
Lemma Copy_invariant_witness :
  call Copy [sym "a"; sym "a"] empty
  = (Ok 0, [Object Copy [("old", sym "a"); ("new", sym "a")]])
  /\ exists old new,
       eval (py_getattr 0 "old")
            (run_ops [op_setattr 0 "old" (sym "b")]
               [Object Copy [("old", sym "a"); ("new", sym "a")]]) = Ok old
       /\ eval (py_getattr 0 "new")
               (run_ops [op_setattr 0 "old" (sym "b")]
                  [Object Copy [("old", sym "a"); ("new", sym "a")]]) = Ok new
       /\ value_eqb old new = true.
Proof.
  split; [reflexivity|].
  exact (Copy_invariant [sym "a"; sym "a"] empty
           [Object Copy [("old", sym "a"); ("new", sym "a")]] 0
           [op_setattr 0 "old" (sym "b")] eq_refl).
Defined.


(** [GenerativeEdit()] is refused; the projection of a [Del] does not
    reach the abstract body. *)
Lemma abstract_method_never_runs_witness :
  call Del [sym "q"] empty = (Ok 0, [Object Del [("old", sym "q")]])
  /\ call GenerativeEdit [] empty = (Raise TypeError, empty)
  /\ eval (conditional_counterpart 0) [Object Del [("old", sym "q")]]
     <> Raise NotImplementedError.
Proof.
  split; [reflexivity|].
  destruct (abstract_method_never_runs Del [sym "q"] [] empty empty
              [Object Del [("old", sym "q")]] 0) as [Habs Hrun].
  split; [exact Habs | exact (Hrun eq_refl)].
Defined.

(** [Ins] and [ConditionalIns] of the same symbol. *)
Lemma hash_ignores_class_witness :
  In Ins (conditional_variants ++ generative_variants)
  /\ In ConditionalIns (conditional_variants ++ generative_variants)
  /\ Ins <> ConditionalIns
  /\ call Ins [sym "n"] empty = (Ok 0, [Object Ins [("new", sym "n")]])
  /\ call ConditionalIns [sym "n"] [Object Ins [("new", sym "n")]]
     = (Ok 1, [Object Ins [("new", sym "n")];
               Object ConditionalIns [("new", sym "n")]])
  /\ py_hash 0 [Object Ins [("new", sym "n")];
                Object ConditionalIns [("new", sym "n")]]
     = (Ok (hash_tuple (map value_hash [sym "n"])),
        [Object Ins [("new", sym "n")];
         Object ConditionalIns [("new", sym "n")]])
  /\ py_hash 1 [Object Ins [("new", sym "n")];
                Object ConditionalIns [("new", sym "n")]]
     = (Ok (hash_tuple (map value_hash [sym "n"])),
        [Object Ins [("new", sym "n")];
         Object ConditionalIns [("new", sym "n")]]).
Proof.
  assert (H1 : In Ins (conditional_variants ++ generative_variants))
    by (do 7 right; left; reflexivity).
  assert (H2 : In ConditionalIns (conditional_variants ++ generative_variants))
    by (do 3 right; left; reflexivity).
  assert (H3 : Ins <> ConditionalIns) by discriminate.
  split; [exact H1|]. split; [exact H2|]. split; [exact H3|].
  split; [reflexivity|]. split; [reflexivity|].
  destruct (hash_ignores_class Ins ConditionalIns [sym "n"] empty
              [Object Ins [("new", sym "n")]]
              [Object Ins [("new", sym "n")];
               Object ConditionalIns [("new", sym "n")]] 0 1
              H1 H2 H3 eq_refl eq_refl) as (Ha & Hb & _).
  split; [exact Ha | exact Hb].
Defined.


(** A stored [Sub] and a stored [Ins] through two operations. *)
Lemma hash_eq_str_are_stable_witness :
  [Object Sub [("old", sym "a"); ("new", sym "b")];
   Object Ins [("new", sym "b")]] !! 0
  = Some (Object Sub [("old", sym "a"); ("new", sym "b")])
  /\ [Object Sub [("old", sym "a"); ("new", sym "b")];
      Object Ins [("new", sym "b")]] !! 1
     = Some (Object Ins [("new", sym "b")])
  /\ In Sub edit_variants /\ In Ins edit_variants
  /\ eval (py_hash 0)
          (run_ops [op_delattr 0 "old"; op_conditional_counterpart 1]
             [Object Sub [("old", sym "a"); ("new", sym "b")];
              Object Ins [("new", sym "b")]])
     = eval (py_hash 0)
            [Object Sub [("old", sym "a"); ("new", sym "b")];
             Object Ins [("new", sym "b")]].
Proof.
  assert (H1 : In Sub edit_variants) by (do 6 right; left; reflexivity).
  assert (H2 : In Ins edit_variants) by (do 9 right; left; reflexivity).
  split; [reflexivity|]. split; [reflexivity|].
  split; [exact H1|]. split; [exact H2|].
  exact (proj1 (hash_eq_str_are_stable
                  [Object Sub [("old", sym "a"); ("new", sym "b")];
                   Object Ins [("new", sym "b")]] 0 1 _ _
                  [op_delattr 0 "old"; op_conditional_counterpart 1]
                  eq_refl eq_refl H1 H2)).
Defined.

(** String equality is an equivalence; two stored [Del] compared both
    ways. *)
Lemma py_eq_is_an_equivalence_witness :
  (forall x : string, sym_eqb x x = true)
  /\ (forall x y : string, sym_eqb x y = sym_eqb y x)
  /\ (forall x y z : string,
        sym_eqb x y = true -> sym_eqb y z = true -> sym_eqb x z = true)
  /\ eval (py_eq 0 1) [Object Del [("old", sym "p")];
                       Object Del [("old", sym "q")]]
     = eval (py_eq 1 0) [Object Del [("old", sym "p")];
                         Object Del [("old", sym "q")]].
Proof.
  assert (Hr : forall x : string, sym_eqb x x = true)
    by exact String.eqb_refl.
  assert (Hs : forall x y : string, sym_eqb x y = sym_eqb y x)
    by exact String.eqb_sym.
  assert (Ht : forall x y z : string,
             sym_eqb x y = true -> sym_eqb y z = true -> sym_eqb x z = true).
  { intros x y z Hxy Hyz. simpl in *.
    apply String.eqb_eq in Hxy. apply String.eqb_eq in Hyz. subst.
    apply String.eqb_refl. }
  split; [exact Hr|]. split; [exact Hs|]. split; [exact Ht|].
  destruct (py_eq_is_an_equivalence Hr Hs Ht
              [Object Del [("old", sym "p")]; Object Del [("old", sym "q")]])
    as (_ & Hsym & _).
  exact (Hsym 0 1).
Defined.

(** A [Sub] built in the empty store and projected twice. *)
Lemma generative_projection_allocates_witness :
  SymbolLaws string
  /\ In Sub generative_variants
  /\ call Sub [sym "a"; sym "b"] empty
     = (Ok 0, [Object Sub [("old", sym "a"); ("new", sym "b")]])
  /\ exists o,
       bind (conditional_counterpart 0)
         (fun k1 => bind (conditional_counterpart 0)
            (fun k2 => bind (py_eq k1 k2)
               (fun same => ret (k1, k2, same))))
         [Object Sub [("old", sym "a"); ("new", sym "b")]]
       = (Ok (1, 2, true),
          [Object Sub [("old", sym "a"); ("new", sym "b")]] ++ [o; o]).
Proof.
  assert (Hc : In Sub generative_variants) by (left; reflexivity).
  split; [exact string_symbol_laws|]. split; [exact Hc|].
  split; [reflexivity|].
  exact (generative_projection_allocates Sub [sym "a"; sym "b"] empty
           [Object Sub [("old", sym "a"); ("new", sym "b")]] 0 Hc eq_refl).
Defined.

